(** * convert-images-to-pdf-app: page geometry, image intake and print markup

    Shallow embedding of the two screens of the application: the screen
    of [app/(tabs)/index.tsx] (module [Tabs]), which prints to a file and
    shares it, and the second screen, [part_000] (module [Drag]), which
    has the drag-to-reorder list and opens the print dialog.  What the two
    files share word for word (paper table, escaping, type inference,
    intake of picked assets) is embedded once.  The properties of the
    written specification follow the embedding.

    Conventions of the embedding.
    - A JavaScript [number] is an IEEE 754 double.  The settings of the
      screens (the paper table with one fractional digit, whole margins)
      are written as rationals ([Q]), each standing for the double that
      its decimal literal denotes, and the geometry computed from them
      with [+ - * / min max floor] is stated on the exact values, equality
      being [Qeq] ([==]).  Wherever the digits of a number reach the
      output, the doubles themselves are computed (module [Binary64]):
      the printing of a number into the markup, the lengths of the content
      region of the second screen, and the conversion to print points.
    - A JavaScript [string] is a Rocq [string]: a sequence of code units
      below 256.  [toLowerCase] is the Unicode lower-casing restricted to
      that range.
    - [undefined]/[null] are [None]; optional chaining [?.] is the bind of
      [option].
    - React state is a record that is passed explicitly; an asynchronous
      handler is a function from the state and the answers of the outside
      services to the new state and the trace of effects it performed. *)

From Stdlib Require Import ZArith QArith Qround Qminmax Qabs String Ascii List
  DecimalString Lia Lqa.
From Stdlib Require Import Floats.SpecFloat.
From stdpp Require Import gmap strings list.

Local Open Scope Z_scope.

(** ** Numbers *)

Module Math.

Definition min (a b : Q) : Q := Qmin a b.
Definition max (a b : Q) : Q := Qmax a b.

(** [Math.floor]: the greatest integer not above [x]. *)
Definition floor (x : Q) : Q := inject_Z (Qfloor x).

End Math.

(** [const clamp = (value, min, max) => Math.min(max, Math.max(min, value))] *)
Definition clamp (value min max : Q) : Q :=
  Math.min max (Math.max min value).

(** ** Strings *)

(** The double quote, spliced into the literals below. *)
Definition dq : string := String "034"%char EmptyString.

(** [s.replace(/c/g, by)]: every occurrence of the character [c]
    replaced, left to right. *)
Fixpoint replaceAll (c : ascii) (by_ : string) (s : string) : string :=
  match s with
  | EmptyString => EmptyString
  | String x rest =>
      if Ascii.eqb x c then by_ +:+ replaceAll c by_ rest
      else String x (replaceAll c by_ rest)
  end.

(** [escapeAttribute]: five global replacements, in the order of the
    source, the ampersand first. *)
Definition escapeAttribute (value : string) : string :=
  replaceAll ">" "&gt;"
    (replaceAll "<" "&lt;"
      (replaceAll "'" "&#39;"
        (replaceAll "034" "&quot;"
          (replaceAll "&" "&amp;" value)))).

(** [s.split(c)] for a one-character separator: the pieces between the
    occurrences of [c]; never empty (one empty piece for the empty string). *)
Fixpoint split (c : ascii) (s : string) : list string :=
  match s with
  | EmptyString => [EmptyString]
  | String x rest =>
      if Ascii.eqb x c then EmptyString :: split c rest
      else match split c rest with
           | [] => [String x EmptyString]
           | piece :: pieces => String x piece :: pieces
           end
  end.

(** [a.pop()] as an expression: the last element, [undefined] on []. *)
Definition pop {A} (l : list A) : option A := last l.

(** [toLowerCase] on one code unit below 256: [A-Z] and the upper-case
    letters of Latin-1 (U+00C0 to U+00DE, without the multiplication
    sign U+00D7) move up by 32. *)
Definition lowerChar (c : ascii) : ascii :=
  let n := nat_of_ascii c in
  if ((65 <=? n)%nat && (n <=? 90)%nat)
     || ((192 <=? n)%nat && (n <=? 222)%nat && negb (n =? 215)%nat)
  then ascii_of_nat (n + 32) else c.

Fixpoint toLowerCase (s : string) : string :=
  match s with
  | EmptyString => EmptyString
  | String c rest => String (lowerChar c) (toLowerCase rest)
  end.

(** [s.startsWith(p)] *)
Definition startsWith (s p : string) : bool := String.prefix p s.

(** [StrWhiteSpaceChar] among the code units below 256: tab, line feed,
    vertical tab, form feed, carriage return, space, no-break space. *)
Definition isWhiteSpace (c : ascii) : bool :=
  let n := nat_of_ascii c in
  ((9 <=? n)%nat && (n <=? 13)%nat) || (n =? 32)%nat || (n =? 160)%nat.

Fixpoint skipWhiteSpace (s : string) : string :=
  match s with
  | String c rest => if isWhiteSpace c then skipWhiteSpace rest else s
  | EmptyString => s
  end.

Definition digitOf (c : ascii) : option Z :=
  let n := nat_of_ascii c in
  if (48 <=? n)%nat && (n <=? 57)%nat then Some (Z.of_nat (n - 48)) else None.

(** The value of the longest prefix of decimal digits, continued from
    [acc]. *)
Fixpoint parseDigits (acc : Z) (s : string) : Z :=
  match s with
  | EmptyString => acc
  | String c rest =>
      match digitOf c with
      | Some d => parseDigits (10 * acc + d) rest
      | None => acc
      end
  end.

(** [Number.parseInt(s, 10)]: leading white space is skipped, one sign is
    read, then the digits up to the first other character; [None] is
    [NaN], the answer when no digit stands there.  The value is the
    exact integer (a double would round beyond 2^53). *)
Definition parseInt (s : string) : option Z :=
  let t := skipWhiteSpace s in
  let signed :=
    match t with
    | String "-" rest => (true, rest)
    | String "+" rest => (false, rest)
    | _ => (false, t)
    end in
  match snd signed with
  | String c _ =>
      match digitOf c with
      | Some _ =>
          let n := parseDigits 0 (snd signed) in
          Some (if fst signed then - n else n)
      | None => None
      end
  | EmptyString => None
  end.

(** ** Doubles

    IEEE 754 binary64 arithmetic, round to nearest with ties to even, as
    the JavaScript engine computes [/], [*] and [-], and the printing of
    a double ([Number::toString]). *)
Module Binary64.

Definition prec : Z := 53.
Definition emax : Z := 1024.

(** An integer literal. *)
Definition ofZ (z : Z) : spec_float := binary_normalize prec emax z 0 false.

Definition div : spec_float -> spec_float -> spec_float := SFdiv prec emax.
Definition mul : spec_float -> spec_float -> spec_float := SFmul prec emax.
Definition sub : spec_float -> spec_float -> spec_float := SFsub prec emax.

(** A decimal literal [n / 10^k], read as the nearest double. *)
Definition literal (n : Z) (k : nat) : spec_float :=
  div (ofZ n) (ofZ (10 ^ Z.of_nat k)).

(** The exact value of a finite double. *)
Definition toQ (f : spec_float) : option Q :=
  match f with
  | S754_zero _ => Some 0%Q
  | S754_finite s m e =>
      let v := (inject_Z (Zpos m) * Qpower 2 e)%Q in
      Some (if s then (- v)%Q else v)
  | S754_infinity _ | S754_nan => None
  end.

(** [Math.round] of a finite double, as an integer: the nearest whole
    number, a tie going up ([Math.round(2.5)] is 3, [Math.round(-2.5)]
    is -2).  It is a double itself, and zero stands for both zeros. *)
Definition round (f : spec_float) : option Z :=
  x ← toQ f; Some (Qfloor (x + (1 # 2))).

(** The double nearest to a rational, a tie going to the even
    significand: the quotient of the numerator by the denominator,
    rounded once. *)
Definition ofQ (q : Q) : spec_float :=
  let r := Qred q in
  match Qnum r with
  | Z0 => S754_zero false
  | Zpos n => div (S754_finite false n 0) (S754_finite false (Qden r) 0)
  | Zneg n => div (S754_finite true n 0) (S754_finite false (Qden r) 0)
  end.

(** [Math.max] of two doubles. *)
Definition max (a b : spec_float) : spec_float :=
  match SFcompare a b with
  | Some Gt => a
  | Some Lt => b
  | Some Eq => match a with S754_zero true => b | _ => a end
  | None => S754_nan
  end.

(** The [n] with [10^(n-1) <= v < 10^n], for a positive [v]. *)
Fixpoint decimalExponentUp (fuel : nat) (v : Q) (n : Z) : Z :=
  match fuel with
  | O => n
  | S fuel' =>
      if Qle_bool (Qpower 10 n) v then decimalExponentUp fuel' v (n + 1)
      else n
  end.

Fixpoint decimalExponentDown (fuel : nat) (v : Q) (n : Z) : Z :=
  match fuel with
  | O => n
  | S fuel' =>
      if Qle_bool (Qpower 10 (n - 1)) v then n
      else decimalExponentDown fuel' v (n - 1)
  end.

Definition decimalExponent (v : Q) : Z :=
  if Qle_bool 1 v then decimalExponentUp 400 v 1
  else decimalExponentDown 400 v 0.

(** Whether the decimal [s * 10^e] reads back as the double [x]. *)
Definition readsBack (x : spec_float) (s e : Z) : bool :=
  SFeqb (ofQ (inject_Z s * Qpower 10 e)) x.

(** The shortest decimal that reads back as [x]: the least number of
    digits [k], from [k] (at most 17 are needed), and the [s] of [k]
    digits with [s * 10^(n-k)] read back as [x]; of two such the one
    nearer to [v], the exact value of [x], the even one when both are as
    near. *)
Fixpoint shortest (fuel : nat) (k : Z) (x : spec_float) (v : Q) (n : Z)
    : Z * Z :=
  match fuel with
  | O => (Qfloor (v / Qpower 10 (n - k)), k)
  | S fuel' =>
      let unit := Qpower 10 (n - k) in
      let low := Qfloor (v / unit) in
      let high := low + 1 in
      match readsBack x low (n - k), readsBack x high (n - k) with
      | true, true =>
          match (v - inject_Z low * unit) ?= (inject_Z high * unit - v) with
          | Lt => (low, k)
          | Gt => (high, k)
          | Eq => (if Z.even low then low else high, k)
          end%Q
      | true, false => (low, k)
      | false, true => (high, k)
      | false, false => shortest fuel' (k + 1) x v n
      end
  end.

Definition digitsOf (s : Z) : string :=
  NilZero.string_of_uint (N.to_uint (Z.to_N s)).

Definition zeros (n : Z) : string :=
  String.concat EmptyString (replicate (Z.to_nat n) "0"%string).

Definition sub_string (from len : Z) (s : string) : string :=
  String.substring (Z.to_nat from) (Z.to_nat len) s.

(** [Number::toString] for a positive finite double of exact value [v]. *)
Definition positiveToString (x : spec_float) (v : Q) : string :=
  let n0 := decimalExponent v in
  let found := shortest 17 1 x v n0 in
  (* ten to the [k] stands for a one with a longer exponent *)
  let carried := fst found =? 10 ^ snd found in
  let s := if carried then 1 else fst found in
  let k := if carried then 1 else snd found in
  let n := if carried then n0 + 1 else n0 in
  let d := digitsOf s in
  if (k <=? n) && (n <=? 21) then d +:+ zeros (n - k)
  else if (0 <? n) && (n <=? 21) then
    sub_string 0 n d +:+ "." +:+ sub_string n (k - n) d
  else if (-6 <? n) && (n <=? 0) then "0." +:+ zeros (- n) +:+ d
  else
    let e := n - 1 in
    (if k =? 1 then d else sub_string 0 1 d +:+ "." +:+ sub_string 1 (k - 1) d)
      +:+ "e" +:+ (if e <? 0 then "-" else "+") +:+ digitsOf (Z.abs e).

(** [Number::toString(x)], radix ten: what [String(x)] and a template
    literal print for a number. *)
Definition toString (x : spec_float) : string :=
  match x with
  | S754_nan => "NaN"
  | S754_zero _ => "0"
  | S754_infinity s => if s then "-Infinity" else "Infinity"
  | S754_finite s m e =>
      (if s then "-" else EmptyString)
        +:+ positiveToString (S754_finite false m e)
              (inject_Z (Zpos m) * Qpower 2 e)
  end.

End Binary64.

(** [String(x)] and [${x}] for a number: the number is the double that [x]
    stands for, and its digits are those of [Number::toString]. *)
Definition numberToString (x : Q) : string :=
  Binary64.toString (Binary64.ofQ x).

(** ** The data model (identical in both screens) *)

Inductive Orientation := portrait | landscape.
Inductive PaperSize := A4 | Letter | Legal.

Record SelectedImage := {
  uri : string;
  width : Q;
  height : Q;
  mimeType : option string;
}.

Record Dimensions := { widthMm : Q; heightMm : Q }.

Definition PAPER_SIZES (p : PaperSize) : Dimensions :=
  match p with
  | A4 => {| widthMm := 210; heightMm := 297 |}
  | Letter => {| widthMm := 2159 # 10; heightMm := 2794 # 10 |}
  | Legal => {| widthMm := 2159 # 10; heightMm := 3556 # 10 |}
  end.

Definition getPageDimensionsMm (paperSize : PaperSize)
    (orientation : Orientation) : Dimensions :=
  let base := PAPER_SIZES paperSize in
  match orientation with
  | portrait => {| widthMm := widthMm base; heightMm := heightMm base |}
  | landscape => {| widthMm := heightMm base; heightMm := widthMm base |}
  end.

(** The test [image.mimeType?.startsWith("image/")]: truthy only for a
    declared type with that prefix, which is then the answer. *)
Definition declaredImageType (image : SelectedImage) : option string :=
  match mimeType image with
  | Some m => if startsWith m "image/" then Some m else None
  | None => None
  end.

(** [image.uri.split("?")[0]?.split(".").pop()?.toLowerCase()] *)
Definition extensionOf (image : SelectedImage) : option string :=
  head (split "?" (uri image)) ≫= (fun path =>
  pop (split "." path) ≫= (fun ext =>
  Some (toLowerCase ext))).

Definition inferImageMimeType (image : SelectedImage) : string :=
  match declaredImageType image with
  | Some m => m
  | None =>
      let extension := extensionOf image in
      if decide (extension = Some "png") then "image/png"
      else if decide (extension = Some "webp") then "image/webp"
      else if decide (extension = Some "gif") then "image/gif"
      else if decide (extension = Some "heic") then "image/heic"
      else if decide (extension = Some "heif") then "image/heic"
      else "image/jpeg"
  end.

(** An asset as the picker returns it; the fields the handler reads
    with [??] are optional. *)
Record ImagePickerAsset := {
  asset_uri : string;
  asset_width : option Q;
  asset_height : option Q;
  asset_mimeType : option string;
}.

(** [result] of [launchImageLibraryAsync]: [assets] is [null] when the
    user cancelled. *)
Record ImagePickerResult := {
  canceled : bool;
  assets : option (list ImagePickerAsset);
}.

(** The object literal built for a surviving asset. *)
Definition toSelectedImage (asset : ImagePickerAsset) : SelectedImage :=
  {| uri := asset_uri asset;
     width := default 0%Q (asset_width asset);
     height := default 0%Q (asset_height asset);
     mimeType := asset_mimeType asset |}.

(** The updater given to [setImages] in [pickImages]: the set of the
    present uris, the picked assets outside of it, appended. *)
Definition addPicked (picked : list ImagePickerAsset)
    (previous : list SelectedImage) : list SelectedImage :=
  let existingUris : gset string := list_to_set (uri <$> previous) in
  let additions :=
    toSelectedImage
      <$> filter (fun asset => asset_uri asset ∉ existingUris) picked in
  previous ++ additions.

(** The updater of [removeImage] (and of the trash button of the second
    screen). *)
Definition removeUri (target : string)
    (previous : list SelectedImage) : list SelectedImage :=
  filter (fun item => uri item ≠ target) previous.

Definition orientationName (o : Orientation) : string :=
  match o with portrait => "portrait" | landscape => "landscape" end.

(** ** Effects

    What a handler does to the outside, in the order it does it.  The
    calls of the state setters are part of the trace, so that a flag that
    is raised and lowered again remains visible. *)
Inductive Effect :=
| RequestPermission
| LaunchImageLibrary
| Alert (title message : string)
| ReadBase64 (fileUri : string)
| PrintToFile (html : string)
| PrintAsync (html : string) (o : Orientation)
| ShareAsync (fileUri : string)
| ConsoleError
| SetImages
| SetInProgress (flag : bool)
| SetPdfUri (fileUri : string)
| SetIsSharing (flag : bool).

(** The answers of the outside services.  [None] and [false] stand for
    a rejected promise. *)
Record Services := {
  permissionGranted : bool;
  pickerResult : ImagePickerResult;
  base64 : string -> option string;
  printToFileAsync : string -> option string;
  printAsync : string -> Orientation -> bool;
  sharingAvailable : bool;
}.

(** [Promise.all(images.map(async image => ...))]: every read is started,
    in order; the result is the list of data URIs when all of them
    succeeded. *)
Definition readAll (sv : Services) (images : list SelectedImage)
    : option (list string) :=
  mapM (fun image =>
          base64 sv (uri image) ≫= (fun payload =>
          Some ("data:" +:+ inferImageMimeType image
                  +:+ ";base64," +:+ payload)))
       images.

Definition readEffects (images : list SelectedImage) : list Effect :=
  (fun image => ReadBase64 (uri image)) <$> images.

(** ** The screen of [app/(tabs)/index.tsx] *)

Module Tabs.

Record State := {
  images : list SelectedImage;
  paperSize : PaperSize;
  orientation : Orientation;
  marginMm : Q;
  isConverting : bool;
  pdfUri : option string;
  isSharing : bool;
}.

Definition initial : State :=
  {| images := []; paperSize := A4; orientation := portrait;
     marginMm := 10; isConverting := false; pdfUri := None;
     isSharing := false |}.

Definition maxMarginMm (widthMm heightMm : Q) : Q :=
  Math.floor (Math.max 0 (Math.min widthMm heightMm / 2 - 1)).

Definition previewAspectRatio (widthMm heightMm marginMm : Q) : Q :=
  let contentWidth := Math.max (widthMm - marginMm * 2) 1 in
  let contentHeight := Math.max (heightMm - marginMm * 2) 1 in
  contentWidth / contentHeight.

Definition buildPdfHtml (widthMm heightMm marginMm : Q)
    (imageSources : list string) : string :=
  let pages :=
    String.concat EmptyString
      (imap (fun index source =>
"
          <section class=" +:+ dq +:+ "sheet" +:+ dq +:+ ">
            <img src=" +:+ dq +:+ escapeAttribute source +:+ dq +:+ " alt=" +:+ dq +:+ "Imagen " +:+ numberToString (inject_Z (Z.of_nat index) + 1)%Q +:+ dq +:+ " />
          </section>
        ")
         imageSources) in
"
      <!doctype html>
      <html lang=" +:+ dq +:+ "es" +:+ dq +:+ ">
        <head>
          <meta charset=" +:+ dq +:+ "utf-8" +:+ dq +:+ " />
          <meta name=" +:+ dq +:+ "viewport" +:+ dq +:+ " content=" +:+ dq +:+ "width=device-width, initial-scale=1" +:+ dq +:+ " />
          <style>
            @page {
              size: " +:+ numberToString widthMm +:+ "mm " +:+ numberToString heightMm +:+ "mm;
              margin: 0;
            }

            html, body {
              margin: 0;
              padding: 0;
              background: #ffffff;
            }

            .sheet {
              box-sizing: border-box;
              width: " +:+ numberToString widthMm +:+ "mm;
              height: " +:+ numberToString heightMm +:+ "mm;
              padding: " +:+ numberToString marginMm +:+ "mm;
              display: flex;
              align-items: center;
              justify-content: center;
              page-break-after: always;
              break-after: page;
            }

            .sheet:last-child {
              page-break-after: auto;
              break-after: auto;
            }

            .sheet img {
              width: 100%;
              height: 100%;
              object-fit: contain;
              display: block;
            }
          </style>
        </head>
        <body>
          " +:+ pages +:+ "
        </body>
      </html>
    ".

(** The geometry read by the handlers: [useMemo] over the state. *)
Definition pageOf (st : State) : Dimensions :=
  getPageDimensionsMm (paperSize st) (orientation st).

Definition setImages (f : list SelectedImage -> list SelectedImage)
    (st : State) : State :=
  {| images := f (images st); paperSize := paperSize st;
     orientation := orientation st; marginMm := marginMm st;
     isConverting := isConverting st; pdfUri := pdfUri st;
     isSharing := isSharing st |}.

Definition setIsConverting (b : bool) (st : State) : State :=
  {| images := images st; paperSize := paperSize st;
     orientation := orientation st; marginMm := marginMm st;
     isConverting := b; pdfUri := pdfUri st; isSharing := isSharing st |}.

Definition setPdfUri (u : option string) (st : State) : State :=
  {| images := images st; paperSize := paperSize st;
     orientation := orientation st; marginMm := marginMm st;
     isConverting := isConverting st; pdfUri := u;
     isSharing := isSharing st |}.

Definition setMarginMm (f : Q -> Q) (st : State) : State :=
  {| images := images st; paperSize := paperSize st;
     orientation := orientation st; marginMm := f (marginMm st);
     isConverting := isConverting st; pdfUri := pdfUri st;
     isSharing := isSharing st |}.

(** The effect that follows a change of [maxMarginMm], and the two
    buttons around the margin field. *)
Definition reclampMargin (st : State) : State :=
  let page := pageOf st in
  setMarginMm
    (fun current =>
       clamp current 0 (maxMarginMm (widthMm page) (heightMm page))) st.

Definition stepMargin (delta : Q) (st : State) : State :=
  let page := pageOf st in
  setMarginMm
    (fun value =>
       clamp (value + delta) 0
         (maxMarginMm (widthMm page) (heightMm page))) st.

Definition pickImages (sv : Services) (st : State)
    : State * list Effect :=
  if negb (permissionGranted sv) then
    (st, [RequestPermission;
          Alert "Permiso requerido"
            "Necesitamos permiso para acceder a tus fotos y convertirlas a PDF."])
  else
    let result := pickerResult sv in
    match assets result with
    | Some (first :: rest) =>
        if canceled result then
          (st, [RequestPermission; LaunchImageLibrary])
        else
          (setImages (addPicked (first :: rest)) st,
           [RequestPermission; LaunchImageLibrary; SetImages])
    | _ => (st, [RequestPermission; LaunchImageLibrary])
    end.

(** The body of the callback [convertToPdf].  The [images] it reads are
    those of the state it is given; which list that is on a press of the
    button is settled by [pressConvert] below, the callback being
    memoised. *)
Definition convertToPdf (sv : Services) (st : State)
    : State * list Effect :=
  match images st with
  | [] =>
      (st, [Alert "Sin imágenes"
              "Selecciona al menos una imagen para convertir."])
  | _ :: _ =>
      let page := pageOf st in
      let started := [SetInProgress true] ++ readEffects (images st) in
      let failed :=
        [Alert "Error" "No se pudo generar el PDF. Intenta nuevamente.";
         ConsoleError; SetInProgress false] in
      match readAll sv (images st) with
      | None => (setIsConverting false (setIsConverting true st),
                 started ++ failed)
      | Some imageSources =>
          let html :=
            buildPdfHtml (widthMm page) (heightMm page) (marginMm st)
              imageSources in
          match printToFileAsync sv html with
          | None => (setIsConverting false (setIsConverting true st),
                     started ++ [PrintToFile html] ++ failed)
          | Some file =>
              (setIsConverting false
                 (setPdfUri (Some file) (setIsConverting true st)),
               started ++
               [PrintToFile html; SetPdfUri file;
                Alert "PDF creado" "Se generó correctamente el PDF.";
                SetInProgress false])
          end
      end
  end.

(** [convertToPdf] is memoised,
    [useCallback(..., [buildPdfHtml, images.length])], and [buildPdfHtml]
    on [[heightMm, marginMm, widthMm]]: the callback is rebuilt in a
    render in which the number of images, the page or the margin differs
    from the render before, and until then it runs with the [images] of
    the render that built it.  A mounted screen is the state of the last
    render together with the list that the callback closes over. *)
Record Mounted := {
  now : State;
  closed : list SelectedImage;
}.

Definition mount (st : State) : Mounted :=
  {| now := st; closed := images st |}.

(** The dependencies of the callback, compared as React does, one by
    one. *)
Definition sameDependencies (before after : State) : bool :=
  bool_decide (length (images before) = length (images after))
  && Qeq_bool (widthMm (pageOf before)) (widthMm (pageOf after))
  && Qeq_bool (heightMm (pageOf before)) (heightMm (pageOf after))
  && Qeq_bool (marginMm before) (marginMm after).

(** A render with the state [after]: whatever updates were committed
    together since the render before. *)
Definition render (m : Mounted) (after : State) : Mounted :=
  {| now := after;
     closed := if sameDependencies (now m) after then closed m
               else images after |}.

(** A press on the button: the body runs with the list that the callback
    closes over; the page and the margin are those of the last render,
    [buildPdfHtml] being a dependency; the setters act on the state.  The
    renders that follow change no dependency. *)
Definition pressConvert (sv : Services) (m : Mounted)
    : Mounted * list Effect :=
  let r := convertToPdf sv (setImages (fun _ => closed m) (now m)) in
  ({| now := setImages (fun _ => images (now m)) (fst r);
      closed := closed m |},
   snd r).

Definition setIsSharing (b : bool) (st : State) : State :=
  {| images := images st; paperSize := paperSize st;
     orientation := orientation st; marginMm := marginMm st;
     isConverting := isConverting st; pdfUri := pdfUri st; isSharing := b |}.

(** [!pdfUri] holds for [null] and for the empty string.  Whether the
    share sheet completes or fails, [finally] lowers the flag. *)
Definition sharePdf (sv : Services) (st : State) : State * list Effect :=
  match pdfUri st with
  | Some (String c rest) =>
      if negb (sharingAvailable sv) then
        (st, [Alert "No disponible"
                "Compartir no está disponible en este dispositivo."])
      else
        (setIsSharing false (setIsSharing true st),
         [SetIsSharing true; ShareAsync (String c rest); SetIsSharing false])
  | _ => (st, [Alert "Sin PDF" "Primero genera un PDF."])
  end.

Definition setPaperSize (p : PaperSize) (st : State) : State :=
  {| images := images st; paperSize := p;
     orientation := orientation st; marginMm := marginMm st;
     isConverting := isConverting st; pdfUri := pdfUri st;
     isSharing := isSharing st |}.

Definition setOrientation (o : Orientation) (st : State) : State :=
  {| images := images st; paperSize := paperSize st;
     orientation := o; marginMm := marginMm st;
     isConverting := isConverting st; pdfUri := pdfUri st;
     isSharing := isSharing st |}.

(** [maxMarginMm] as the component sees it. *)
Definition maxMarginOf (st : State) : Q :=
  let page := pageOf st in maxMarginMm (widthMm page) (heightMm page).

(** The effect with the dependency [maxMarginMm]: it runs after a render
    in which that value differs from the one of the render before. *)
Definition afterRender (before after : State) : State :=
  if Qeq_bool (maxMarginOf before) (maxMarginOf after) then after
  else reclampMargin after.

(** [onChangeText] of the margin field:
    [clamp(Number.parseInt(text || "0", 10) || 0, 0, maxMarginMm)]. *)
Definition typeMargin (text : string) (st : State) : State :=
  let shown := match text with EmptyString => "0" | _ => text end in
  let parsed := default 0%Z (parseInt shown) in
  setMarginMm (fun _ => clamp (inject_Z parsed) 0 (maxMarginOf st)) st.

(** What the user can do to the page settings of this screen. *)
Inductive Action :=
| ChoosePaper (p : PaperSize)
| ChooseOrientation (o : Orientation)
| PressMinus
| PressPlus
| TypeMargin (text : string).

Definition act (a : Action) (st : State) : State :=
  match a with
  | ChoosePaper p => afterRender st (setPaperSize p st)
  | ChooseOrientation o => afterRender st (setOrientation o st)
  | PressMinus => stepMargin (-2) st
  | PressPlus => stepMargin 2 st
  | TypeMargin text => typeMargin text st
  end.

(** The actions of [l], the first one first. *)
Definition run (l : list Action) (st : State) : State :=
  foldl (fun s a => act a s) st l.

End Tabs.

(** ** The second screen ([part_000]) *)

Module Drag.

Record State := {
  images : list SelectedImage;
  paperSize : PaperSize;
  orientation : Orientation;
  paddingMm : Q;
  isGenerating : bool;
  previewCanvasSize : Q * Q;
}.

Definition initial : State :=
  {| images := []; paperSize := A4; orientation := portrait;
     paddingMm := 10; isGenerating := false;
     previewCanvasSize := (0, 0)%Q |}.

(** [Math.round((mm / 25.4) * 72)] on doubles: the quotient is rounded to
    a double, then the product, and [Math.round] takes the result to a
    whole number, here an integer; [None] stands for [NaN] and the two
    infinities, which [Math.round] hands back as they are. *)
Definition mmToPrintPoints (mm : spec_float) : option Z :=
  Binary64.round
    (Binary64.mul (Binary64.div mm (Binary64.literal 254 1))
       (Binary64.ofZ 72)).

Definition maxPaddingMm (widthMm heightMm : Q) : Q :=
  Math.floor (Math.max 0 (Math.min widthMm heightMm / 2 - 1)).

Definition previewAspectRatio (widthMm heightMm : Q) : Q :=
  widthMm / heightMm.

Definition previewContentSize (canvas : Q * Q)
    (widthMm heightMm paddingMm : Q) : Q * Q :=
  (Math.max 1 (fst canvas * Math.max 0 (1 - (paddingMm * 2) / widthMm)),
   Math.max 1 (snd canvas * Math.max 0 (1 - (paddingMm * 2) / heightMm))).

(** The two lengths of the content region are computed on the doubles,
    [Math.max(widthMm - paddingMm * 2, 1)], and printed as they come out:
    215.9 less 24 prints as [191.9], 279.4 less 24 as
    [255.39999999999998]. *)
Definition buildPdfHtml (orientation : Orientation)
    (widthMm heightMm paddingMm : Q)
    (imageSources : list string) : string :=
  let contentWidthMm :=
    Binary64.max
      (Binary64.sub (Binary64.ofQ widthMm)
         (Binary64.mul (Binary64.ofQ paddingMm) (Binary64.ofZ 2)))
      (Binary64.ofZ 1) in
  let contentHeightMm :=
    Binary64.max
      (Binary64.sub (Binary64.ofQ heightMm)
         (Binary64.mul (Binary64.ofQ paddingMm) (Binary64.ofZ 2)))
      (Binary64.ofZ 1) in
  let pages :=
    String.concat EmptyString
      (imap (fun index source =>
"
          <section class=" +:+ dq +:+ "sheet " +:+ orientationName orientation +:+ dq +:+ ">
            <div class=" +:+ dq +:+ "content" +:+ dq +:+ ">
              <img src=" +:+ dq +:+ escapeAttribute source +:+ dq +:+ " alt=" +:+ dq +:+ "Imagen " +:+ numberToString (inject_Z (Z.of_nat index) + 1)%Q +:+ dq +:+ " />
            </div>
          </section>
        ")
         imageSources) in
"
      <!doctype html>
      <html lang=" +:+ dq +:+ "es" +:+ dq +:+ ">
        <head>
          <meta charset=" +:+ dq +:+ "utf-8" +:+ dq +:+ " />
          <meta name=" +:+ dq +:+ "viewport" +:+ dq +:+ " content=" +:+ dq +:+ "width=device-width, initial-scale=1" +:+ dq +:+ " />
          <style>
            @page {
              size: " +:+ numberToString widthMm +:+ "mm " +:+ numberToString heightMm +:+ "mm;
              margin: 0;
            }

            html, body {
              margin: 0;
              padding: 0;
              background: #ffffff;
            }

            .sheet {
              width: " +:+ numberToString widthMm +:+ "mm;
              height: " +:+ numberToString heightMm +:+ "mm;
              display: flex;
              align-items: center;
              justify-content: center;
              page-break-after: always;
              break-after: page;
              overflow: hidden;
            }

            .sheet:last-child {
              page-break-after: auto;
              break-after: auto;
            }

            .content {
              width: " +:+ Binary64.toString contentWidthMm +:+ "mm;
              height: " +:+ Binary64.toString contentHeightMm +:+ "mm;
              display: flex;
              align-items: center;
              justify-content: center;
            }

            .content img {
              max-width: 100%;
              max-height: 100%;
              width: auto;
              height: auto;
              display: block;
            }

            .sheet.landscape .content img {
              max-width: " +:+ Binary64.toString contentHeightMm +:+ "mm;
              max-height: " +:+ Binary64.toString contentWidthMm +:+ "mm;
              transform: rotate(90deg);
              transform-origin: center center;
            }
          </style>
        </head>
        <body>
          " +:+ pages +:+ "
        </body>
      </html>
    ".

Definition pageOf (st : State) : Dimensions :=
  getPageDimensionsMm (paperSize st) (orientation st).

Definition setImages (f : list SelectedImage -> list SelectedImage)
    (st : State) : State :=
  {| images := f (images st); paperSize := paperSize st;
     orientation := orientation st; paddingMm := paddingMm st;
     isGenerating := isGenerating st;
     previewCanvasSize := previewCanvasSize st |}.

Definition setIsGenerating (b : bool) (st : State) : State :=
  {| images := images st; paperSize := paperSize st;
     orientation := orientation st; paddingMm := paddingMm st;
     isGenerating := b; previewCanvasSize := previewCanvasSize st |}.

Definition setPaddingMm (f : Q -> Q) (st : State) : State :=
  {| images := images st; paperSize := paperSize st;
     orientation := orientation st; paddingMm := f (paddingMm st);
     isGenerating := isGenerating st;
     previewCanvasSize := previewCanvasSize st |}.

Definition stepPadding (delta : Q) (st : State) : State :=
  let page := pageOf st in
  setPaddingMm
    (fun current =>
       clamp (current + delta) 0
         (maxPaddingMm (widthMm page) (heightMm page))) st.

Definition pickImages (sv : Services) (st : State)
    : State * list Effect :=
  if negb (permissionGranted sv) then
    (st, [RequestPermission;
          Alert "Permiso requerido"
            "Necesitamos permiso para acceder a tus fotos y convertirlas a PDF."])
  else
    let result := pickerResult sv in
    match assets result with
    | Some (first :: rest) =>
        if canceled result then
          (st, [RequestPermission; LaunchImageLibrary])
        else
          (setImages (addPicked (first :: rest)) st,
           [RequestPermission; LaunchImageLibrary; SetImages])
    | _ => (st, [RequestPermission; LaunchImageLibrary])
    end.

Definition generatePdf (sv : Services) (st : State)
    : State * list Effect :=
  match images st with
  | [] =>
      (st, [Alert "Sin imágenes"
              "Selecciona al menos una imagen para convertir."])
  | _ :: _ =>
      let page := pageOf st in
      let started := [SetInProgress true] ++ readEffects (images st) in
      let failed :=
        [Alert "Error" "No se pudo generar o compartir el PDF.";
         ConsoleError; SetInProgress false] in
      match readAll sv (images st) with
      | None => (setIsGenerating false (setIsGenerating true st),
                 started ++ failed)
      | Some imageSources =>
          let html :=
            buildPdfHtml (orientation st) (widthMm page) (heightMm page)
              (paddingMm st) imageSources in
          if printAsync sv html (orientation st) then
            (setIsGenerating false (setIsGenerating true st),
             started ++ [PrintAsync html (orientation st);
                         SetInProgress false])
          else
            (setIsGenerating false (setIsGenerating true st),
             started ++ [PrintAsync html (orientation st)] ++ failed)
      end
  end.

Definition setPaperSize (p : PaperSize) (st : State) : State :=
  {| images := images st; paperSize := p;
     orientation := orientation st; paddingMm := paddingMm st;
     isGenerating := isGenerating st;
     previewCanvasSize := previewCanvasSize st |}.

Definition setOrientation (o : Orientation) (st : State) : State :=
  {| images := images st; paperSize := paperSize st;
     orientation := o; paddingMm := paddingMm st;
     isGenerating := isGenerating st;
     previewCanvasSize := previewCanvasSize st |}.

Definition maxPaddingOf (st : State) : Q :=
  let page := pageOf st in maxPaddingMm (widthMm page) (heightMm page).

(** [onDragEnd={({ data }) => setImages(data)}] *)
Definition onDragEnd (data : list SelectedImage) (st : State) : State :=
  setImages (fun _ => data) st.

(** [onPreviewLayout]: the measured canvas replaces the stored one
    unless both sides are the same numbers. *)
Definition onPreviewLayout (canvasWidth canvasHeight : Q) (st : State)
    : State :=
  let current := previewCanvasSize st in
  {| images := images st; paperSize := paperSize st;
     orientation := orientation st; paddingMm := paddingMm st;
     isGenerating := isGenerating st;
     previewCanvasSize :=
       if Qeq_bool (fst current) canvasWidth
          && Qeq_bool (snd current) canvasHeight
       then current else (canvasWidth, canvasHeight) |}.

(** The two breakpoints of the layout, from the width of the window. *)
Definition horizontalPadding (width : Q) : Q :=
  if Qle_bool 768 width then 24
  else if Qle_bool 420 width then 16
  else 12.

Definition contentMaxWidth (width : Q) : Q :=
  if Qle_bool 1024 width then 860
  else if Qle_bool 768 width then 720
  else width.

(** What the user can do to the page settings of this screen; no effect
    follows a change of paper here. *)
Inductive Action :=
| ChoosePaper (p : PaperSize)
| ChooseOrientation (o : Orientation)
| PressMinus
| PressPlus.

Definition act (a : Action) (st : State) : State :=
  match a with
  | ChoosePaper p => setPaperSize p st
  | ChooseOrientation o => setOrientation o st
  | PressMinus => stepPadding (-2) st
  | PressPlus => stepPadding 2 st
  end.

Definition run (l : list Action) (st : State) : State :=
  foldl (fun s a => act a s) st l.

End Drag.

(** ** Notions used by the statements *)

(** Width and height exchanged. *)
Definition transpose (d : Dimensions) : Dimensions :=
  {| widthMm := heightMm d; heightMm := widthMm d |}.

(** What [useMemo] hands to the preview canvas in each screen. *)
Definition tabsPreviewRatio (st : Tabs.State) : Q :=
  let page := Tabs.pageOf st in
  Tabs.previewAspectRatio (widthMm page) (heightMm page) (Tabs.marginMm st).

Definition dragPreviewRatio (st : Drag.State) : Q :=
  let page := Drag.pageOf st in
  Drag.previewAspectRatio (widthMm page) (heightMm page).

(** An image known by its handle and declared type only. *)
Definition imageOf (handle : string) (declared : option string)
    : SelectedImage :=
  {| uri := handle; width := 0; height := 0; mimeType := declared |}.

Definition assetOf (handle : string) : ImagePickerAsset :=
  {| asset_uri := handle; asset_width := None; asset_height := None;
     asset_mimeType := None |}.

(** The text before the first [c] (all of [s] when there is none). *)
Fixpoint beforeFirst (c : ascii) (s : string) : string :=
  match s with
  | EmptyString => EmptyString
  | String x rest =>
      if Ascii.eqb x c then EmptyString else String x (beforeFirst c rest)
  end.

Fixpoint hasChar (c : ascii) (s : string) : bool :=
  match s with
  | EmptyString => false
  | String x rest => Ascii.eqb x c || hasChar c rest
  end.

(** The text after the last [c] (all of [s] when there is none). *)
Fixpoint afterLast (c : ascii) (s : string) : string :=
  match s with
  | EmptyString => EmptyString
  | String x rest =>
      if hasChar c rest then afterLast c rest
      else if Ascii.eqb x c then rest else s
  end.


(** One-pass escaping: what each character becomes on its own. *)
Definition escapeChar (c : ascii) : string :=
  if Ascii.eqb c "&" then "&amp;"
  else if Ascii.eqb c "034" then "&quot;"
  else if Ascii.eqb c "'" then "&#39;"
  else if Ascii.eqb c "<" then "&lt;"
  else if Ascii.eqb c ">" then "&gt;"
  else String c EmptyString.

Fixpoint substChars (f : ascii -> string) (s : string) : string :=
  match s with
  | EmptyString => EmptyString
  | String x rest => f x +:+ substChars f rest
  end.

(** The characters that end an attribute value or open or close a tag. *)
Definition breaksAttribute (c : ascii) : bool :=
  Ascii.eqb c "034" || Ascii.eqb c "'" || Ascii.eqb c "<" || Ascii.eqb c ">".

Fixpoint noneOf (bad : ascii -> bool) (s : string) : bool :=
  match s with
  | EmptyString => true
  | String x rest => negb (bad x) && noneOf bad rest
  end.

(** [needle] occurs in [s]. *)
Definition occursIn (needle s : string) : Prop :=
  exists pre post, s = pre +:+ needle +:+ post.


(** *** Reading the generated markup

    The statements about the markup read it the way a style sheet is
    read: the block of a selector, and in it the value of a property. *)

(** [s] without its prefix [p], when it has it. *)
Fixpoint stripPrefix (p s : string) : option string :=
  match p, s with
  | EmptyString, _ => Some s
  | String a p', String b s' =>
      if Ascii.eqb a b then stripPrefix p' s' else None
  | String _ _, EmptyString => None
  end.

(** What follows the first occurrence of [needle] in [s]. *)
Fixpoint textAfter (needle s : string) : option string :=
  match stripPrefix needle s with
  | Some rest => Some rest
  | None =>
      match s with
      | EmptyString => None
      | String _ s' => textAfter needle s'
      end
  end.

(** What precedes the first occurrence of [needle] in [s]. *)
Fixpoint textBefore (needle s : string) : option string :=
  match stripPrefix needle s with
  | Some _ => Some EmptyString
  | None =>
      match s with
      | EmptyString => None
      | String c s' => String c <$> textBefore needle s'
      end
  end.

Fixpoint trimLeft (s : string) : string :=
  match s with
  | String " " s' => trimLeft s'
  | _ => s
  end.

(** The declarations between the braces of the first rule whose
    selector is [selector]. *)
Definition cssBlock (selector html : string) : option string :=
  rule ← textAfter (" " +:+ selector +:+ " {") html;
  textBefore "}" rule.

(** The value of [property] in that rule. *)
Definition cssValue (selector property html : string) : option string :=
  block ← cssBlock selector html;
  declaration ← textAfter (" " +:+ property +:+ ":") block;
  value ← textBefore ";" declaration;
  Some (trimLeft value).

(** What follows the opening tags [tags], met in this order, after
    [<body>]. *)
Definition insideTags (tags : list string) (html : string) : option string :=
  foldl (fun rest tag => inner ← rest; textAfter tag inner)
    (textAfter "<body>" html) tags.

(** The opening tags of the page unit of each screen, down to the
    quote that opens the image source. *)
Definition tabsPagePath : list string :=
  ["<section class=" +:+ dq +:+ "sheet" +:+ dq +:+ ">";
   "<img src=" +:+ dq].

Definition dragPagePath (o : Orientation) : list string :=
  ["<section class=" +:+ dq +:+ "sheet " +:+ orientationName o +:+ dq +:+ ">";
   "<div class=" +:+ dq +:+ "content" +:+ dq +:+ ">";
   "<img src=" +:+ dq].

(** The side of the content area of a box laid out with
    [box-sizing: border-box]: the padding is taken from the declared
    side, at both ends. *)
Definition borderBoxContent (side padding : Q) : Q := side - 2 * padding.

(** The value of the attribute that the last tag of [path] leaves open:
    the text up to the closing quote. *)
Definition attributeAt (path : list string) (html : string) : option string :=
  inner ← insideTags path html;
  textBefore dq inner.

(** *** Notions used by the further properties *)

(** What holds of the margin of the first screen between two actions. *)
Definition tabsMarginOk (st : Tabs.State) : Prop :=
  (0 <= Tabs.marginMm st)%Q
  /\ (Tabs.marginMm st <= Tabs.maxMarginOf st)%Q
  /\ exists z : Z, (Tabs.marginMm st == inject_Z z)%Q.

(** The markup that [generatePdf] and [convertToPdf] build in a state. *)
Definition tabsMarkup (st : Tabs.State) (sources : list string) : string :=
  let page := Tabs.pageOf st in
  Tabs.buildPdfHtml (widthMm page) (heightMm page) (Tabs.marginMm st) sources.

Definition dragMarkup (st : Drag.State) (sources : list string) : string :=
  let page := Drag.pageOf st in
  Drag.buildPdfHtml (Drag.orientation st) (widthMm page) (heightMm page)
    (Drag.paddingMm st) sources.

(** The whole number [n] prints as text that [parseInt] reads back as
    [n]. *)
Definition printsBack (n : nat) : Prop :=
  parseInt (numberToString (inject_Z (Z.of_nat n))) = Some (Z.of_nat n)
  /\ numberToString (inject_Z (Z.of_nat n)) <> EmptyString.

#[local] Instance printsBack_dec (n : nat) : Decision (printsBack n).
Proof. unfold printsBack. apply _. Defined.

(** What holds of the padding of the second screen between two actions. *)
Definition dragPaddingOk (st : Drag.State) : Prop :=
  (0 <= Drag.paddingMm st)%Q
  /\ (Drag.paddingMm st <= 106)%Q
  /\ exists z : Z, (Drag.paddingMm st == inject_Z z)%Q.

(** Letter, forty-eight times plus, then A4. *)
Definition overPadded : list Drag.Action :=
  [Drag.ChoosePaper Letter] ++ repeat Drag.PressPlus 48
    ++ [Drag.ChoosePaper A4].

(** The five characters that [escapeAttribute] replaces. *)
Definition needsEscape (c : ascii) : bool :=
  Ascii.eqb c "&" || breaksAttribute c.

(** The types that the extension table can answer. *)
Definition tableTypes : list string :=
  ["image/png"; "image/webp"; "image/gif"; "image/heic"; "image/jpeg"].

(** A length in millimetres as the markup writes it. *)
Definition mm (x : Q) : string := numberToString x +:+ "mm".

(** [Math.max(side - padding * 2, 1)] on doubles: a length of the
    content region of the second screen. *)
Definition contentSide (side padding : Q) : spec_float :=
  Binary64.max
    (Binary64.sub (Binary64.ofQ side)
       (Binary64.mul (Binary64.ofQ padding) (Binary64.ofZ 2)))
    (Binary64.ofZ 1).


(** A finite double that is no more than 10^-13 away from [x]. *)
Definition within (f : spec_float) (x : Q) : bool :=
  match Binary64.toQ f with
  | Some y => Qle_bool (Qabs (y - x)) (1 # 10000000000000)
  | None => false
  end.

(** What the style sheet of the second screen says about the page, the
    sheet, the content region and the turned image, for a page of
    [w] by [h] and a padding of [padding]: the lengths of the content
    region are the doubles [contentSide], printed as they are, and lie
    within 10^-13 mm of each side less twice the padding, or of 1 mm
    when that is less. *)
Definition dragGeometryRead (html : string) (w h padding : Q) : Prop :=
  let contentWidth := contentSide w padding in
  let contentHeight := contentSide h padding in
  cssValue "@page" "size" html = Some (mm w +:+ " " +:+ mm h)
  /\ cssValue "@page" "margin" html = Some "0"
  /\ cssValue ".sheet" "width" html = Some (mm w)
  /\ cssValue ".sheet" "height" html = Some (mm h)
  /\ cssValue ".content" "width" html
     = Some (Binary64.toString contentWidth +:+ "mm")
  /\ cssValue ".content" "height" html
     = Some (Binary64.toString contentHeight +:+ "mm")
  /\ cssValue ".sheet.landscape .content img" "max-width" html
     = Some (Binary64.toString contentHeight +:+ "mm")
  /\ cssValue ".sheet.landscape .content img" "max-height" html
     = Some (Binary64.toString contentWidth +:+ "mm")
  /\ cssValue ".sheet.landscape .content img" "transform" html
     = Some "rotate(90deg)"
  /\ within contentWidth (Math.max (w - padding * 2) 1) = true
  /\ within contentHeight (Math.max (h - padding * 2) 1) = true.

(** The same for the first screen: page, sheet and padding. *)
Definition tabsGeometryRead (html : string) (w h margin : Q) : Prop :=
  cssValue "@page" "size" html = Some (mm w +:+ " " +:+ mm h)
  /\ cssValue "@page" "margin" html = Some "0"
  /\ cssValue ".sheet" "width" html = Some (mm w)
  /\ cssValue ".sheet" "height" html = Some (mm h)
  /\ cssValue ".sheet" "box-sizing" html = Some "border-box"
  /\ cssValue ".sheet" "padding" html = Some (mm margin).

#[local] Instance dragGeometryRead_dec (html : string) (w h padding : Q) :
  Decision (dragGeometryRead html w h padding).
Proof. unfold dragGeometryRead. cbv zeta. apply _. Defined.

#[local] Instance tabsGeometryRead_dec (html : string) (w h margin : Q) :
  Decision (tabsGeometryRead html w h margin).
Proof. unfold tabsGeometryRead. apply _. Defined.

(** The customary size of each paper in print points (1/72 inch). *)
Definition standardPoints (p : PaperSize) : Z * Z :=
  match p with
  | A4 => (595, 842)
  | Letter => (612, 792)
  | Legal => (612, 1008)
  end%Z.

(** The double nearest to [n / 10], the way a decimal literal with one
    digit after the point is read. *)
Definition tenths (n : nat) : spec_float := Binary64.literal (Z.of_nat n) 1.

(** The whole number nearest to [x / 25.4 * 72] computed without any
    rounding before the last, a tie going up. *)
Definition exactPoints (x : Q) : Z :=
  Qfloor (x / (254 # 10) * 72 + (1 # 2))%Q.

(** [mmToPrintPoints] gives on the double of [n / 10] what exact
    arithmetic gives on [n / 10]. *)
Definition pointsAgree (n : nat) : Prop :=
  Drag.mmToPrintPoints (tenths n)
  = Some (exactPoints (inject_Z (Z.of_nat n) / 10)).

(** The double printed as [7.937499999999999]. *)
Definition offGrid : spec_float := S754_finite false 8936830510563327 (-50).

#[local] Instance pointsAgree_dec (n : nat) : Decision (pointsAgree n).
Proof. unfold pointsAgree. apply _. Defined.

(** * Properties *)

(** ** Page geometry *)

Lemma transpose_involutive (d : Dimensions) : transpose (transpose d) = d.
Proof. by destruct d. Qed.

(** C2: for every paper size, [getPageDimensionsMm] gives the pair of
    the paper table unchanged in portrait and exchanged in landscape;
    exchanging the landscape pair once more gives the portrait pair, and
    exchanging twice changes nothing. *)
Theorem getPageDimensionsMm_orientations (p : PaperSize) :
  getPageDimensionsMm p portrait = PAPER_SIZES p
  /\ getPageDimensionsMm p landscape = transpose (PAPER_SIZES p)
  /\ transpose (getPageDimensionsMm p landscape)
     = getPageDimensionsMm p portrait
  /\ transpose (transpose (getPageDimensionsMm p portrait))
     = getPageDimensionsMm p portrait.
Proof.
  split; [by destruct p |]. split; [by destruct p |].
  split; [by destruct p | apply transpose_involutive].
Qed.

Local Open Scope Q_scope.

Lemma Qfloor_max0 (x : Q) :
  Qfloor (Qmax 0 x) = Z.max 0 (Qfloor x).
Proof.
  destruct (Qlt_le_dec x 0) as [Hneg | Hpos].
  - rewrite (Qfloor_comp (Qmax 0 x) 0).
    + change (Qfloor 0) with 0%Z.
      assert (Qfloor x <= 0)%Z.
      { change 0%Z with (Qfloor 0). apply Qfloor_resp_le. lra. }
      lia.
    + apply Q.max_l. lra.
  - rewrite (Qfloor_comp (Qmax 0 x) x).
    + assert (0 <= Qfloor x)%Z.
      { change 0%Z with (Qfloor 0). by apply Qfloor_resp_le. }
      lia.
    + by apply Q.max_r.
Qed.

Lemma Qmin_mono (a b a' b' : Q) :
  a' <= a -> b' <= b -> Qmin a' b' <= Qmin a b.
Proof.
  intros Ha Hb. apply Q.min_glb.
  - apply Qle_trans with a'; [apply Q.le_min_l | exact Ha].
  - apply Qle_trans with b'; [apply Q.le_min_r | exact Hb].
Qed.

Lemma Qmax_mono_r (x y : Q) : x <= y -> Qmax 0 x <= Qmax 0 y.
Proof.
  intros H. apply Q.max_lub.
  - apply Q.le_max_l.
  - apply Qle_trans with y; [exact H | apply Q.le_max_r].
Qed.

Lemma floorMargin_mono (w h w' h' : Q) :
  w' <= w -> h' <= h ->
  (Qfloor (Qmax 0 (Qmin w' h' / 2 - 1))
   <= Qfloor (Qmax 0 (Qmin w h / 2 - 1)))%Z.
Proof.
  intros Hw Hh. apply Qfloor_resp_le, Qmax_mono_r.
  pose proof (Qmin_mono _ _ _ _ Hw Hh) as Hmin.
  unfold Qdiv. 
  assert (Qmin w' h' * / 2 <= Qmin w h * / 2).
  { apply Qmult_le_compat_r; [exact Hmin | done]. }
  lra.
Qed.

(** C5: for positive dimensions the largest margin is
    [floor(min(w,h)/2 - 1)] raised to 0; smaller paper never has a larger
    bound; on A4 portrait it is 104.  The same holds for [maxPaddingMm]
    of the second screen. *)
Theorem maxMarginMm_formula_monotone_A4 (w h w' h' : Q)
    (Hw : 0 < w) (Hh : 0 < h) (Hw' : 0 < w') (Hh' : 0 < h')
    (Hshrink_w : w' <= w) (Hshrink_h : h' <= h) :
  Tabs.maxMarginMm w h
    = inject_Z (Z.max 0 (Qfloor (Qmin w h / 2 - 1)))
  /\ Drag.maxPaddingMm w h
    = inject_Z (Z.max 0 (Qfloor (Qmin w h / 2 - 1)))
  /\ Tabs.maxMarginMm w' h' <= Tabs.maxMarginMm w h
  /\ Drag.maxPaddingMm w' h' <= Drag.maxPaddingMm w h
  /\ (let page := getPageDimensionsMm A4 portrait in
      Tabs.maxMarginMm (widthMm page) (heightMm page) = 104
      /\ Drag.maxPaddingMm (widthMm page) (heightMm page) = 104).
Proof.
  unfold Tabs.maxMarginMm, Drag.maxPaddingMm, Math.floor, Math.max, Math.min.
  repeat split.
  - f_equal. apply Qfloor_max0.
  - f_equal. apply Qfloor_max0.
  - rewrite <- Zle_Qle. by apply floorMargin_mono.
  - rewrite <- Zle_Qle. by apply floorMargin_mono.
Qed.

Lemma maxMarginMm_formula_monotone_A4_witness :
  (0 < 297 /\ 0 < 210 /\ 210 <= 297 /\ 148 <= 210)
  /\ Tabs.maxMarginMm 297 210
      = inject_Z (Z.max 0 (Qfloor (Qmin 297 210 / 2 - 1)))
  /\ Tabs.maxMarginMm 210 148 <= Tabs.maxMarginMm 297 210.
Proof.
  assert (H1 : 0 < 297) by reflexivity.
  assert (H2 : 0 < 210) by reflexivity.
  assert (H3 : 0 < 148) by reflexivity.
  assert (H4 : 210 <= 297) by discriminate.
  assert (H5 : 148 <= 210) by discriminate.
  destruct (maxMarginMm_formula_monotone_A4 297 210 210 148 H1 H2 H2 H3 H4 H5)
    as (Hf & _ & Hm & _).
  repeat split; assumption.
Defined.

(** C6: for every double [mm], [mmToPrintPoints mm] is [Math.round] of
    the double [(mm / 25.4) * 72]: when that product is finite, the whole
    number within a half of it (the upper half excluded: a tie goes up);
    when it is not ([NaN], an infinity), no whole number.  25.4 mm are
    72 points and 10 mm are 28. *)
Theorem mmToPrintPoints_rounds (mm : spec_float) :
  match
    Binary64.toQ
      (Binary64.mul (Binary64.div mm (Binary64.literal 254 1))
         (Binary64.ofZ 72))
  with
  | Some x =>
      exists n : Z,
        Drag.mmToPrintPoints mm = Some n
        /\ inject_Z n - (1 # 2) <= x
        /\ x < inject_Z n + (1 # 2)
  | None => Drag.mmToPrintPoints mm = None
  end
  /\ Drag.mmToPrintPoints (Binary64.literal 254 1) = Some 72%Z
  /\ Drag.mmToPrintPoints (Binary64.ofZ 10) = Some 28%Z.
Proof.
  split; [| split; vm_compute; reflexivity].
  unfold Drag.mmToPrintPoints, Binary64.round.
  destruct (Binary64.toQ _) as [x |]; [| reflexivity].
  exists (Qfloor (x + (1 # 2))). split; [reflexivity |].
  pose proof (Qfloor_le (x + (1 # 2))) as Hlo.
  pose proof (Qlt_floor (x + (1 # 2))) as Hhi.
  rewrite inject_Z_plus in Hhi. change (inject_Z 1) with 1 in Hhi.
  split; lra.
Qed.

(** ** Preview *)

Lemma paper_at_least_210 (p : PaperSize) (o : Orientation) :
  let page := getPageDimensionsMm p o in
  210 <= widthMm page /\ 210 <= heightMm page
  /\ ~ widthMm page == heightMm page.
Proof. destruct p, o; repeat split; discriminate. Qed.

Lemma maxMarginMm_below_half (w h : Q) :
  Tabs.maxMarginMm w h <= Qmax 0 (Qmin w h / 2 - 1).
Proof. apply Qfloor_le. Qed.

Lemma tabs_ratio_in_range (w h m : Q) :
  210 <= w -> 210 <= h -> ~ w == h ->
  0 <= m -> m <= Tabs.maxMarginMm w h ->
  Tabs.previewAspectRatio w h m == (w - 2 * m) / (h - 2 * m)
  /\ (Tabs.previewAspectRatio w h m == w / h <-> m == 0).
Proof.
  intros Hw Hh Hne Hm0 Hmax.
  pose proof (maxMarginMm_below_half w h) as Hhalf.
  assert (Hmin : 210 <= Qmin w h) by (by apply Q.min_glb).
  pose proof (Q.le_min_l w h) as Hmw.
  pose proof (Q.le_min_r w h) as Hmh.
  revert Hhalf Hmin Hmw Hmh. generalize (Qmin w h). intros q Hhalf Hmin Hmw Hmh.
  assert (Ehalf : q / 2 == q * (1 # 2)) by reflexivity.
  assert (Hpos : 0 <= q / 2 - 1) by (rewrite Ehalf; lra).
  rewrite (Q.max_r _ _ Hpos), Ehalf in Hhalf.
  assert (Hcw : 1 <= w - m * 2) by lra.
  assert (Hch : 1 <= h - m * 2) by lra.
  unfold Tabs.previewAspectRatio, Math.max.
  rewrite (Q.max_l _ _ Hcw), (Q.max_l _ _ Hch).
  assert (E1 : w - m * 2 == w - 2 * m) by ring.
  assert (E2 : h - m * 2 == h - 2 * m) by ring.
  rewrite E1, E2. split; [reflexivity |].
  assert (Hh0 : ~ h == 0) by lra.
  assert (Hc0 : ~ h - 2 * m == 0) by lra.
  split.
  - intros Heq.
    assert (Hx : (w - 2 * m) * h == w * (h - 2 * m)).
    { assert (L : (w - 2 * m) * h
                  == (w - 2 * m) / (h - 2 * m) * ((h - 2 * m) * h))
        by (field; exact Hc0).
      assert (R : w * (h - 2 * m) == w / h * ((h - 2 * m) * h))
        by (field; exact Hh0).
      rewrite L, R, Heq. reflexivity. }
    assert (Hprod : m * (w - h) == 0) by lra.
    apply Qmult_integral in Hprod. destruct Hprod as [H0 | H0].
    + exact H0.
    + exfalso. apply Hne. lra.
  - intros H0. rewrite H0.
    assert (E3 : w - 2 * 0 == w) by ring.
    assert (E4 : h - 2 * 0 == h) by ring.
    by rewrite E3, E4.
Qed.

(** C8, counterexample: on A4 portrait with the initial margin of 10 mm
    the first screen constrains the canvas to 190/277, not 210/297. *)
Lemma tabs_previewAspectRatio_depends_on_margin :
  let page := getPageDimensionsMm A4 portrait in
  Tabs.previewAspectRatio (widthMm page) (heightMm page) 10 == 190 / 277
  /\ ~ Tabs.previewAspectRatio (widthMm page) (heightMm page) 10
       == widthMm page / heightMm page.
Proof. split; [reflexivity | discriminate]. Qed.

(** C8, as amended: in the second screen the ratio is
    [widthMm / heightMm] of the page and no setting of the padding changes
    it; in the first screen it is the ratio of the content box,
    [(widthMm - 2 margin) / (heightMm - 2 margin)] for every margin the
    clamp admits, and that is the ratio of the page exactly when the
    margin is 0. *)
Theorem previewAspectRatio_per_screen (p : PaperSize) (o : Orientation)
    (m : Q) :
  let page := getPageDimensionsMm p o in
  let w := widthMm page in
  let h := heightMm page in
  (forall st : Drag.State,
      Drag.paperSize st = p -> Drag.orientation st = o ->
      dragPreviewRatio st = w / h
      /\ forall f, dragPreviewRatio (Drag.setPaddingMm f st)
                   = dragPreviewRatio st)
  /\ (0 <= m -> m <= Tabs.maxMarginMm w h ->
      Tabs.previewAspectRatio w h m == (w - 2 * m) / (h - 2 * m)
      /\ (Tabs.previewAspectRatio w h m == w / h <-> m == 0)).
Proof.
  intros page w h. split.
  - intros st Hp Ho. unfold dragPreviewRatio, Drag.pageOf. simpl.
    rewrite Hp, Ho. split; [reflexivity | intros f; reflexivity].
  - intros Hm0 Hmax.
    destruct (paper_at_least_210 p o) as (Hw & Hh & Hne).
    by apply tabs_ratio_in_range.
Qed.

Lemma previewAspectRatio_per_screen_witness :
  (0 <= 10 /\ 10 <= Tabs.maxMarginMm 210 297)
  /\ Tabs.previewAspectRatio 210 297 10 == (210 - 2 * 10) / (297 - 2 * 10).
Proof.
  assert (H1 : 0 <= 10) by discriminate.
  assert (H2 : 10 <= Tabs.maxMarginMm 210 297) by discriminate.
  split; [split; assumption |].
  exact (proj1 (proj2 (previewAspectRatio_per_screen A4 portrait 10) H1 H2)).
Defined.

(** ** Strings *)

Lemma append_nil_l (s : string) : EmptyString +:+ s = s.
Proof. reflexivity. Qed.

Lemma append_cons (c : ascii) (s t : string) :
  String c s +:+ t = String c (s +:+ t).
Proof. reflexivity. Qed.


Lemma append_assoc (a b c : string) : (a +:+ b) +:+ c = a +:+ (b +:+ c).
Proof.
  induction a as [| x a IH]; [reflexivity |].
  by rewrite !append_cons, IH.
Qed.

Lemma head_split (c : ascii) (s : string) :
  head (split c s) = Some (beforeFirst c s).
Proof.
  induction s as [| x s IH]; simpl; [reflexivity |].
  destruct (Ascii.eqb x c); [reflexivity |].
  destruct (split c s) as [| piece pieces]; simpl in *; [discriminate |].
  by inversion IH.
Qed.

Lemma split_single (c : ascii) (s : string) :
  hasChar c s = false -> split c s = [s].
Proof.
  induction s as [| x s IH]; simpl; [reflexivity |].
  destruct (Ascii.eqb x c); simpl; [discriminate |].
  intros H. by rewrite (IH H).
Qed.

Lemma split_several (c : ascii) (s : string) :
  hasChar c s = true -> exists p q qs, split c s = p :: q :: qs.
Proof.
  induction s as [| x s IH]; simpl; [discriminate |].
  destruct (Ascii.eqb x c); simpl.
  - intros _. destruct (hasChar c s) eqn:Hs.
    + destruct (IH eq_refl) as (p & q & qs & E). rewrite E. eauto.
    + rewrite (split_single c s Hs). eauto.
  - intros H. destruct (IH H) as (p & q & qs & E). rewrite E. eauto.
Qed.

Lemma last_split (c : ascii) (s : string) :
  pop (split c s) = Some (afterLast c s).
Proof.
  unfold pop. induction s as [| x s IH]; simpl; [reflexivity |].
  destruct (hasChar c s) eqn:Hhas.
  - destruct (split_several c s Hhas) as (p & q & qs & E).
    rewrite E in *. rewrite <- IH.
    destruct (Ascii.eqb x c); reflexivity.
  - rewrite (split_single c s Hhas).
    destruct (Ascii.eqb x c); reflexivity.
Qed.

Lemma extensionOf_spec (image : SelectedImage) :
  extensionOf image
  = Some (toLowerCase (afterLast "." (beforeFirst "?" (uri image)))).
Proof.
  unfold extensionOf. rewrite head_split. simpl.
  by rewrite last_split.
Qed.

(** ** Image types *)




(** ** Escaping *)

Lemma substChars_app (f : ascii -> string) (a b : string) :
  substChars f (a +:+ b) = substChars f a +:+ substChars f b.
Proof.
  induction a as [| x a IH]; [reflexivity |].
  rewrite append_cons. simpl. by rewrite IH, append_assoc.
Qed.

Lemma substChars_compose (f g : ascii -> string) (s : string) :
  substChars g (substChars f s) = substChars (fun x => substChars g (f x)) s.
Proof.
  induction s as [| x s IH]; [reflexivity |].
  simpl. by rewrite substChars_app, IH.
Qed.

Lemma substChars_ext (f g : ascii -> string) (s : string) :
  (forall x, f x = g x) -> substChars f s = substChars g s.
Proof.
  intros Hfg. induction s as [| x s IH]; [reflexivity |].
  simpl. by rewrite Hfg, IH.
Qed.

Lemma replaceAll_substChars (c : ascii) (by_ s : string) :
  replaceAll c by_ s
  = substChars (fun x => if Ascii.eqb x c then by_ else String x EmptyString) s.
Proof.
  induction s as [| x s IH]; [reflexivity |].
  simpl. rewrite IH. by destruct (Ascii.eqb x c).
Qed.

Lemma escapeAttribute_one_pass (value : string) :
  escapeAttribute value = substChars escapeChar value.
Proof.
  unfold escapeAttribute. rewrite !replaceAll_substChars.
  rewrite !substChars_compose. apply substChars_ext.
  intros x. destruct x as [[] [] [] [] [] [] [] []]; reflexivity.
Qed.

Lemma noneOf_app (bad : ascii -> bool) (a b : string) :
  noneOf bad (a +:+ b) = noneOf bad a && noneOf bad b.
Proof.
  induction a as [| x a IH]; [reflexivity |].
  rewrite append_cons. simpl. rewrite IH. by destruct (bad x).
Qed.

Lemma escapeChar_safe (x : ascii) :
  noneOf breaksAttribute (escapeChar x) = true.
Proof. destruct x as [[] [] [] [] [] [] [] []]; reflexivity. Qed.

Lemma escapeAttribute_noneOf (value : string) :
  noneOf breaksAttribute (escapeAttribute value) = true.
Proof.
  rewrite escapeAttribute_one_pass.
  induction value as [| x s IH]; [reflexivity |].
  simpl. by rewrite noneOf_app, escapeChar_safe, IH.
Qed.


(** ** Occurrences *)

Lemma occursIn_here (n post : string) : occursIn n (n +:+ post).
Proof. by exists EmptyString, post. Qed.











(** ** Image intake *)

Lemma uri_toSelectedImage (l : list ImagePickerAsset) :
  uri <$> (toSelectedImage <$> l) = asset_uri <$> l.
Proof. by rewrite <- list_fmap_compose. Qed.

Lemma filter_none {A} (P : A -> Prop) `{!forall x, Decision (P x)}
    (l : list A) :
  (forall x, x ∈ l -> ~ P x) -> filter P l = [].
Proof.
  induction l as [| x l IH]; intros Hnone; [reflexivity |].
  rewrite filter_cons_False; [| apply Hnone; left].
  apply IH. intros y Hy. apply Hnone. by right.
Qed.

(** C9: picking the same assets again adds nothing. *)
Theorem addPicked_idempotent (previous : list SelectedImage)
    (picked : list ImagePickerAsset) :
  addPicked picked (addPicked picked previous) = addPicked picked previous.
Proof.
  unfold addPicked at 1. cbv zeta.
  rewrite filter_none; [by rewrite fmap_nil, app_nil_r |].
  intros a Ha Hnew. apply Hnew. clear Hnew.
  rewrite elem_of_list_to_set. unfold addPicked.
  rewrite fmap_app, uri_toSelectedImage, elem_of_app.
  destruct (decide (asset_uri a ∈ uri <$> previous)) as [Hold | Hfresh];
    [by left | right].
  apply list_elem_of_fmap. exists a. split; [reflexivity |].
  apply list_elem_of_filter. split; [| exact Ha].
  by rewrite elem_of_list_to_set.
Qed.




(** ** Export *)

(** C7: with no image selected the export handler of either screen only
    shows its alert: the state is returned as it was (the progress flag
    and, in the first screen, the handle of an earlier PDF included), and
    the trace holds neither a change of the flag, nor a file read, nor a
    print of any markup. *)
Theorem export_without_images_only_alerts (sv : Services)
    (tabs : Tabs.State) (drag : Drag.State)
    (Htabs : Tabs.images tabs = []) (Hdrag : Drag.images drag = []) :
  let notice :=
    Alert "Sin imágenes" "Selecciona al menos una imagen para convertir." in
  Tabs.convertToPdf sv tabs = (tabs, [notice])
  /\ Drag.generatePdf sv drag = (drag, [notice])
  /\ forall trace,
       trace = snd (Tabs.convertToPdf sv tabs)
       \/ trace = snd (Drag.generatePdf sv drag) ->
       (forall flag, SetInProgress flag ∉ trace)
       /\ (forall file, ReadBase64 file ∉ trace)
       /\ (forall html, PrintToFile html ∉ trace)
       /\ (forall html o, PrintAsync html o ∉ trace).
Proof.
  intros notice.
  assert (Et : Tabs.convertToPdf sv tabs = (tabs, [notice])).
  { unfold Tabs.convertToPdf. by rewrite Htabs. }
  assert (Ed : Drag.generatePdf sv drag = (drag, [notice])).
  { unfold Drag.generatePdf. by rewrite Hdrag. }
  split; [exact Et |]. split; [exact Ed |].
  intros trace Htrace.
  assert (E : trace = [notice]).
  { destruct Htrace as [-> | ->]; [by rewrite Et | by rewrite Ed]. }
  subst trace.
  repeat split; intros; intros Hin;
    apply list_elem_of_singleton in Hin; discriminate.
Qed.

Lemma export_without_images_only_alerts_witness :
  (Tabs.images Tabs.initial = [] /\ Drag.images Drag.initial = [])
  /\ forall sv, Tabs.convertToPdf sv Tabs.initial
     = (Tabs.initial,
        [Alert "Sin imágenes" "Selecciona al menos una imagen para convertir."]).
Proof.
  split; [split; reflexivity |]. intros sv.
  exact (proj1 (export_without_images_only_alerts sv Tabs.initial Drag.initial
                  eq_refl eq_refl)).
Defined.

(** The handlers do run when there is something to export: one image,
    a readable file and a working printer. *)
Example convertToPdf_one_image :
  let sv := {| permissionGranted := true;
               pickerResult := {| canceled := true; assets := None |};
               base64 := fun _ => Some "QUJD";
               printToFileAsync := fun _ => Some "file:///out.pdf";
               printAsync := fun _ _ => true;
               sharingAvailable := true |} in
  let st := Tabs.setImages (fun _ => [imageOf "file:///a.PNG" None])
              Tabs.initial in
  let html := Tabs.buildPdfHtml 210 297 10 ["data:image/png;base64,QUJD"] in
  Tabs.convertToPdf sv st
  = (Tabs.setPdfUri (Some "file:///out.pdf") st,
     [SetInProgress true; ReadBase64 "file:///a.PNG"; PrintToFile html;
      SetPdfUri "file:///out.pdf";
      Alert "PDF creado" "Se generó correctamente el PDF.";
      SetInProgress false]).
Proof. vm_compute. reflexivity. Qed.

Example generatePdf_unreadable_image :
  let sv := {| permissionGranted := true;
               pickerResult := {| canceled := true; assets := None |};
               base64 := fun _ => None;
               printToFileAsync := fun _ => None;
               printAsync := fun _ _ => true;
               sharingAvailable := true |} in
  let st := Drag.setImages (fun _ => [imageOf "file:///a.jpg" None])
              Drag.initial in
  Drag.generatePdf sv st
  = (st,
     [SetInProgress true; ReadBase64 "file:///a.jpg";
      Alert "Error" "No se pudo generar o compartir el PDF.";
      ConsoleError; SetInProgress false]).
Proof. vm_compute. reflexivity. Qed.

(** ** The markup *)

Lemma hasChar_noneOf (c : ascii) (bad : ascii -> bool) (s : string) :
  bad c = true -> noneOf bad s = true -> hasChar c s = false.
Proof.
  intros Hc. induction s as [| x s IH]; [reflexivity |].
  simpl. destruct (Ascii.eqb_spec x c) as [-> | Hne].
  - by rewrite Hc.
  - simpl. destruct (bad x); [discriminate | exact IH].
Qed.

Lemma escapeAttribute_no_quote (s : string) :
  hasChar "034" (escapeAttribute s) = false.
Proof.
  apply (hasChar_noneOf _ breaksAttribute); [reflexivity |].
  apply escapeAttribute_noneOf.
Qed.

Lemma textBefore_closing (c : ascii) (e rest : string) :
  hasChar c e = false ->
  textBefore (String c EmptyString) (e +:+ String c rest) = Some e.
Proof.
  induction e as [| x e IH]; intros Hno.
  - rewrite append_nil_l. simpl. by rewrite Ascii.eqb_refl.
  - simpl in Hno. apply orb_false_elim in Hno as [Hx He].
    rewrite append_cons. simpl. rewrite Ascii.eqb_sym, Hx.
    by rewrite (IH He).
Qed.

Lemma attributeAt_read (path : list string) (html e r1 r2 : string) :
  hasChar "034" e = false ->
  insideTags path html = Some ((e +:+ String "034" r1) +:+ r2) ->
  attributeAt path html = Some e.
Proof.
  intros Hno Hin. unfold attributeAt. rewrite Hin. simpl.
  rewrite append_assoc, append_cons. by apply textBefore_closing.
Qed.

Ltac read_markup :=
  lazymatch goal with
  | |- _ /\ _ => split; [vm_compute; reflexivity | read_markup]
  | |- attributeAt _ _ = Some (escapeAttribute ?s) =>
      cbv beta iota zeta
        delta [imap String.concat Tabs.buildPdfHtml Drag.buildPdfHtml];
      eapply (attributeAt_read _ _ _ _ _ (escapeAttribute_no_quote s));
      generalize (escapeAttribute s); intros e;
      vm_compute; reflexivity
  end.

(** C1: for A4, portrait, 10 mm and one image, the markup of either
    screen sets the page to 210mm by 297mm without page margin and every
    sheet to 210mm by 297mm; the content region is 190mm by 277mm
    (declared as the size of the content box in the second screen, and
    left by a padding of 10mm inside a border-box sheet in the first); the
    box around the image centres it on both axes, and the image is fitted
    into the region with its proportions kept (bounded by 100% of it with
    automatic sides in the second screen, [object-fit: contain] in the
    first).  The image itself stands in the one sheet of the body. *)
Theorem A4_portrait_10mm_markup (src : string) :
  let page := getPageDimensionsMm A4 portrait in
  let tabs := Tabs.buildPdfHtml (widthMm page) (heightMm page) 10 [src] in
  let drag :=
    Drag.buildPdfHtml portrait (widthMm page) (heightMm page) 10 [src] in
  (cssValue "@page" "size" tabs = Some "210mm 297mm"
   /\ cssValue "@page" "margin" tabs = Some "0"
   /\ cssValue ".sheet" "width" tabs = Some "210mm"
   /\ cssValue ".sheet" "height" tabs = Some "297mm"
   /\ cssValue ".sheet" "box-sizing" tabs = Some "border-box"
   /\ cssValue ".sheet" "padding" tabs = Some "10mm"
   /\ borderBoxContent (widthMm page) 10 == 190
   /\ borderBoxContent (heightMm page) 10 == 277
   /\ cssValue ".sheet" "display" tabs = Some "flex"
   /\ cssValue ".sheet" "align-items" tabs = Some "center"
   /\ cssValue ".sheet" "justify-content" tabs = Some "center"
   /\ cssValue ".sheet img" "width" tabs = Some "100%"
   /\ cssValue ".sheet img" "height" tabs = Some "100%"
   /\ cssValue ".sheet img" "object-fit" tabs = Some "contain"
   /\ attributeAt tabsPagePath tabs = Some (escapeAttribute src))
  /\ (cssValue "@page" "size" drag = Some "210mm 297mm"
      /\ cssValue "@page" "margin" drag = Some "0"
      /\ cssValue ".sheet" "width" drag = Some "210mm"
      /\ cssValue ".sheet" "height" drag = Some "297mm"
      /\ cssValue ".sheet" "display" drag = Some "flex"
      /\ cssValue ".sheet" "align-items" drag = Some "center"
      /\ cssValue ".sheet" "justify-content" drag = Some "center"
      /\ cssValue ".content" "width" drag = Some "190mm"
      /\ cssValue ".content" "height" drag = Some "277mm"
      /\ cssValue ".content" "display" drag = Some "flex"
      /\ cssValue ".content" "align-items" drag = Some "center"
      /\ cssValue ".content" "justify-content" drag = Some "center"
      /\ cssValue ".content img" "max-width" drag = Some "100%"
      /\ cssValue ".content img" "max-height" drag = Some "100%"
      /\ cssValue ".content img" "width" drag = Some "auto"
      /\ cssValue ".content img" "height" drag = Some "auto"
      /\ attributeAt (dragPagePath portrait) drag
         = Some (escapeAttribute src)).
Proof.
  intros page tabs drag. subst tabs drag.
  split; read_markup.
Qed.

(** * Further properties of the two screens *)

(** ** Clamping and the margin *)

Lemma clamp_cases (v lo hi : Q) :
  lo <= hi ->
  (v < lo /\ clamp v lo hi == lo)
  \/ (lo <= v /\ v <= hi /\ clamp v lo hi == v)
  \/ (hi < v /\ clamp v lo hi == hi).
Proof.
  intros Hlh. unfold clamp, Math.min, Math.max.
  destruct (Qlt_le_dec v lo) as [Hlow | Hge].
  - left. split; [exact Hlow |].
    rewrite (Q.max_l lo v) by lra. by rewrite Q.min_r.
  - right. rewrite (Q.max_r lo v) by exact Hge.
    destruct (Qlt_le_dec hi v) as [Hhigh | Hle].
    + right. split; [exact Hhigh |]. apply Q.min_l. lra.
    + left. repeat split; [exact Hge | exact Hle |]. by apply Q.min_r.
Qed.

Lemma clamp_range (v lo hi : Q) :
  lo <= hi ->
  lo <= clamp v lo hi /\ clamp v lo hi <= hi
  /\ (lo <= v -> v <= hi -> clamp v lo hi == v).
Proof.
  intros Hlh.
  destruct (clamp_cases v lo hi Hlh) as [[? E] | [(? & ? & E) | [? E]]];
    repeat split; intros; lra.
Qed.

(** X1: with a lower bound not above the upper one, [clamp] answers a
    number between the bounds, the value itself when it already lies
    there, and clamping twice is clamping once. *)
Theorem clamp_within_bounds (v lo hi : Q) (Hbounds : lo <= hi) :
  lo <= clamp v lo hi
  /\ clamp v lo hi <= hi
  /\ (lo <= v -> v <= hi -> clamp v lo hi == v)
  /\ clamp (clamp v lo hi) lo hi == clamp v lo hi.
Proof.
  assert (Hin : lo <= clamp v lo hi /\ clamp v lo hi <= hi).
  { destruct (clamp_cases v lo hi Hbounds) as [[_ E] | [(? & ? & E) | [_ E]]];
      split; lra. }
  destruct Hin as [Hlo Hhi]. repeat split; try assumption.
  - intros H1 H2.
    destruct (clamp_cases v lo hi Hbounds) as [[? E] | [(? & ? & E) | [? E]]];
      lra.
  - destruct (clamp_cases (clamp v lo hi) lo hi Hbounds)
      as [[? E] | [(? & ? & E) | [? E]]]; lra.
Qed.

Lemma clamp_within_bounds_witness :
  (0 <= 104)
  /\ 0 <= clamp 500 0 104 /\ clamp 500 0 104 <= 104
  /\ clamp (-2) 0 104 == 0.
Proof.
  assert (H : 0 <= 104) by discriminate.
  destruct (clamp_within_bounds 500 0 104 H) as (H1 & H2 & _).
  repeat split; try assumption; reflexivity.
Defined.

Lemma maxMarginMm_nonneg (w h : Q) : 0 <= Tabs.maxMarginMm w h.
Proof.
  unfold Tabs.maxMarginMm, Math.floor, Math.max.
  rewrite Qfloor_max0. change 0 with (inject_Z 0). rewrite <- Zle_Qle. lia.
Qed.

Lemma maxMarginMm_integer (w h : Q) :
  exists z : Z, Tabs.maxMarginMm w h == inject_Z z.
Proof. eexists. reflexivity. Qed.

Lemma clamp_integer (v lo hi : Q) :
  lo <= hi ->
  (exists z, v == inject_Z z) -> (exists z, lo == inject_Z z) ->
  (exists z, hi == inject_Z z) ->
  exists z, clamp v lo hi == inject_Z z.
Proof.
  intros Hlh [zv Hv] [zl Hl] [zh Hh].
  destruct (clamp_cases v lo hi Hlh) as [[_ E] | [(_ & _ & E) | [_ E]]].
  - exists zl. lra.
  - exists zv. lra.
  - exists zh. lra.
Qed.

Lemma tabsMarginOk_set (st : Tabs.State) (v : Q) :
  (exists z, v == inject_Z z) ->
  tabsMarginOk
    (Tabs.setMarginMm (fun _ => clamp v 0 (Tabs.maxMarginOf st)) st).
Proof.
  intros Hv.
  pose proof (maxMarginMm_nonneg (widthMm (Tabs.pageOf st))
                (heightMm (Tabs.pageOf st))) as Hmax.
  fold (Tabs.maxMarginOf st) in Hmax.
  destruct (clamp_range v 0 (Tabs.maxMarginOf st) Hmax)
    as (Hlo & Hhi & _).
  unfold tabsMarginOk. simpl.
  change (Tabs.maxMarginOf (Tabs.setMarginMm _ st))
    with (Tabs.maxMarginOf st).
  repeat split; try assumption.
  apply clamp_integer; try assumption.
  - by exists 0%Z.
  - apply maxMarginMm_integer.
Qed.

Lemma tabsMarginOk_act (a : Tabs.Action) (st : Tabs.State) :
  tabsMarginOk st -> tabsMarginOk (Tabs.act a st).
Proof.
  intros (H0 & Hmax & [z Hz]).
  assert (Hrender : forall st', Tabs.marginMm st' = Tabs.marginMm st ->
            tabsMarginOk (Tabs.afterRender st st')).
  { intros st' Hm. unfold Tabs.afterRender.
    destruct (Qeq_bool _ _) eqn:Hsame.
    - apply Qeq_bool_eq in Hsame. unfold tabsMarginOk. rewrite Hm.
      repeat split; [exact H0 | by rewrite <- Hsame | by exists z].
    - unfold Tabs.reclampMargin.
      change (Tabs.setMarginMm _ st')
        with (Tabs.setMarginMm
                (fun _ => clamp (Tabs.marginMm st') 0 (Tabs.maxMarginOf st'))
                st').
      apply tabsMarginOk_set. rewrite Hm. by exists z. }
  destruct a as [p | o | | | text]; simpl.
  - by apply Hrender.
  - by apply Hrender.
  - apply (tabsMarginOk_set st). exists (z + -2)%Z.
    rewrite inject_Z_plus, Hz. reflexivity.
  - apply (tabsMarginOk_set st). exists (z + 2)%Z.
    rewrite inject_Z_plus, Hz. reflexivity.
  - apply (tabsMarginOk_set st). eexists. reflexivity.
Qed.

Lemma tabsMarginOk_run (actions : list Tabs.Action) (st : Tabs.State) :
  tabsMarginOk st -> tabsMarginOk (Tabs.run actions st).
Proof.
  revert st. induction actions as [| a l IH]; intros st Hst; [exact Hst |].
  apply IH. by apply tabsMarginOk_act.
Qed.

Lemma tabsMarginOk_initial : tabsMarginOk Tabs.initial.
Proof. repeat split; try discriminate. by exists 10%Z. Qed.

Lemma content_side_at_least_2 (w h m : Q) :
  210 <= w -> 210 <= h -> m <= Tabs.maxMarginMm w h ->
  2 <= w - 2 * m /\ 2 <= h - 2 * m.
Proof.
  intros Hw Hh Hm.
  pose proof (maxMarginMm_below_half w h) as Hhalf.
  assert (Hmin : 210 <= Qmin w h) by (by apply Q.min_glb).
  pose proof (Q.le_min_l w h) as Hmw.
  pose proof (Q.le_min_r w h) as Hmh.
  revert Hhalf Hmin Hmw Hmh. generalize (Qmin w h).
  intros q Hhalf Hmin Hmw Hmh.
  assert (Ehalf : q / 2 == q * (1 # 2)) by reflexivity.
  assert (Hpos : 0 <= q / 2 - 1) by (rewrite Ehalf; lra).
  rewrite (Q.max_r _ _ Hpos), Ehalf in Hhalf. split; lra.
Qed.

(** X2: whatever the user does to the page settings of the first
    screen (choosing paper or orientation, pressing minus or plus, typing
    any text into the margin field), the margin remains a whole number of
    millimetres between 0 and [maxMarginMm] of the current page, and it
    leaves a content region of at least 2 mm on each side of the page. *)
Theorem tabs_margin_always_in_range (actions : list Tabs.Action) :
  let st := Tabs.run actions Tabs.initial in
  let page := Tabs.pageOf st in
  0 <= Tabs.marginMm st
  /\ Tabs.marginMm st <= Tabs.maxMarginOf st
  /\ (exists z : Z, Tabs.marginMm st == inject_Z z)
  /\ 2 <= widthMm page - 2 * Tabs.marginMm st
  /\ 2 <= heightMm page - 2 * Tabs.marginMm st.
Proof.
  intros st page.
  destruct (tabsMarginOk_run actions _ tabsMarginOk_initial)
    as (H0 & Hmax & Hz).
  fold st in H0, Hmax, Hz.
  repeat split; try assumption;
    destruct (paper_at_least_210 (Tabs.paperSize st) (Tabs.orientation st))
      as (Hw & Hh & _);
    destruct (content_side_at_least_2 _ _ _ Hw Hh Hmax) as [Hcw Hch];
    assumption.
Qed.

(** X3: [maxMarginMm] is the same for a page and for the page turned,
    so choosing an orientation never runs the clamping effect and leaves
    the margin as it is; the bound is 104 mm on A4 and 106 mm on Letter
    and Legal. *)
Theorem orientation_keeps_margin (st : Tabs.State) (o : Orientation)
    (p : PaperSize) :
  Tabs.maxMarginOf (Tabs.setOrientation o st) = Tabs.maxMarginOf st
  /\ Tabs.act (Tabs.ChooseOrientation o) st = Tabs.setOrientation o st
  /\ Tabs.maxMarginMm (widthMm (getPageDimensionsMm p o))
       (heightMm (getPageDimensionsMm p o))
     = match p with A4 => 104 | Letter => 106 | Legal => 106 end.
Proof.
  assert (E : Tabs.maxMarginOf (Tabs.setOrientation o st)
              = Tabs.maxMarginOf st).
  { unfold Tabs.maxMarginOf, Tabs.pageOf. simpl.
    destruct (Tabs.paperSize st), (Tabs.orientation st), o; reflexivity. }
  split; [exact E |]. split.
  - simpl. unfold Tabs.afterRender. rewrite E.
    by rewrite (proj2 (Qeq_bool_iff _ _) (Qeq_refl _)).
  - by destruct p, o.
Qed.

(** ** The margin field *)

Lemma numberToString_Qeq (x y : Q) :
  x == y -> numberToString x = numberToString y.
Proof.
  intros E. unfold numberToString, Binary64.ofQ. cbv zeta.
  by rewrite (Qred_complete x y E).
Qed.

Lemma printsBack_margins (z : Z) :
  (0 <= z <= 106)%Z ->
  parseInt (numberToString (inject_Z z)) = Some z
  /\ numberToString (inject_Z z) <> EmptyString.
Proof.
  intros Hz.
  assert (Hall : Forall printsBack (seq 0 107)).
  { apply (bool_decide_unpack _). vm_compute. exact I. }
  rewrite Forall_forall in Hall.
  specialize (Hall (Z.to_nat z)). unfold printsBack in Hall.
  rewrite Z2Nat.id in Hall by lia. apply Hall. apply elem_of_seq. lia.
Qed.

Lemma maxMarginOf_106 (st : Tabs.State) : Tabs.maxMarginOf st <= 106.
Proof.
  unfold Tabs.maxMarginOf, Tabs.pageOf.
  destruct (Tabs.paperSize st), (Tabs.orientation st); vm_compute;
    discriminate.
Qed.

(** X4: the margin field shows [String(marginMm)]; whatever the user did
    before, the margin is a whole number from 0 to 106, the field shows
    its digits, and entering the shown text again leaves the margin as it
    is. *)
Theorem margin_field_round_trip (actions : list Tabs.Action) :
  let st := Tabs.run actions Tabs.initial in
  Tabs.marginMm (Tabs.typeMargin (numberToString (Tabs.marginMm st)) st)
    == Tabs.marginMm st
  /\ exists z : Z,
       (0 <= z <= 106)%Z
       /\ Tabs.marginMm st == inject_Z z
       /\ parseInt (numberToString (Tabs.marginMm st)) = Some z.
Proof.
  intros st.
  destruct (tabsMarginOk_run actions _ tabsMarginOk_initial)
    as (H0 & Hmax & [z Hz]).
  fold st in H0, Hmax, Hz.
  assert (Hz0 : (0 <= z <= 106)%Z).
  { pose proof (maxMarginOf_106 st) as H106.
    assert (Hq : 0 <= inject_Z z /\ inject_Z z <= 106).
    { rewrite <- Hz. split; [exact H0 |].
      apply Qle_trans with (Tabs.maxMarginOf st); assumption. }
    destruct Hq as [Hq1 Hq2].
    change 0 with (inject_Z 0) in Hq1. change 106 with (inject_Z 106) in Hq2.
    rewrite <- Zle_Qle in Hq1, Hq2. lia. }
  destruct (printsBack_margins z Hz0) as [Hparse Hne].
  rewrite <- (numberToString_Qeq _ _ Hz) in Hparse, Hne.
  split; [| by exists z].
  unfold Tabs.typeMargin. cbv zeta. simpl.
  destruct (numberToString (Tabs.marginMm st)) as [| c rest] eqn:Es;
    [done |].
  cbv beta iota. rewrite Hparse. simpl.
  destruct (clamp_range (inject_Z z) 0 (Tabs.maxMarginOf st))
    as (_ & _ & Hid).
  + apply Qle_trans with (Tabs.marginMm st); assumption.
  + rewrite Hid; [by symmetry | lra | lra].
Qed.

(** ** The padding of the second screen *)

Lemma maxPaddingOf_bounds (st : Drag.State) :
  0 <= Drag.maxPaddingOf st /\ Drag.maxPaddingOf st <= 106
  /\ exists z, Drag.maxPaddingOf st == inject_Z z.
Proof.
  unfold Drag.maxPaddingOf, Drag.pageOf.
  destruct (Drag.paperSize st), (Drag.orientation st);
    (repeat split; [discriminate | discriminate | eexists; reflexivity]).
Qed.

Lemma dragPaddingOk_act (a : Drag.Action) (st : Drag.State) :
  dragPaddingOk st -> dragPaddingOk (Drag.act a st).
Proof.
  intros (H0 & H106 & [z Hz]).
  destruct (maxPaddingOf_bounds st) as (Hm0 & Hm106 & Hmz).
  assert (Hstep : forall d : Z,
            dragPaddingOk (Drag.stepPadding (inject_Z d) st)).
  { intros d. unfold dragPaddingOk, Drag.stepPadding. simpl.
    fold (Drag.maxPaddingOf st).
    destruct (clamp_range (Drag.paddingMm st + inject_Z d) 0
                (Drag.maxPaddingOf st) Hm0) as (Hlo & Hhi & _).
    repeat split; [exact Hlo | lra |].
    apply clamp_integer; [exact Hm0 | | by exists 0%Z | exact Hmz].
    exists (z + d)%Z. rewrite inject_Z_plus, Hz. reflexivity. }
  destruct a as [p | o | |]; simpl.
  - repeat split; [exact H0 | exact H106 | by exists z].
  - repeat split; [exact H0 | exact H106 | by exists z].
  - apply (Hstep (-2)%Z).
  - apply (Hstep 2%Z).
Qed.

Lemma dragPaddingOk_run (actions : list Drag.Action) (st : Drag.State) :
  dragPaddingOk st -> dragPaddingOk (Drag.run actions st).
Proof.
  revert st. induction actions as [| a l IH]; intros st Hst; [exact Hst |].
  apply IH. by apply dragPaddingOk_act.
Qed.

(** X5: in the second screen the two padding buttons keep the padding
    between 0 and [maxPaddingMm] of the page shown, and along any
    sequence of actions it is a whole number between 0 and 106; but no
    effect re-clamps it when the paper changes: after Letter, 48 times
    plus and A4 the padding is 106, above the 104 of A4, and the markup
    gives the content region a width of 1mm. *)
Theorem drag_padding_not_reclamped (actions : list Drag.Action)
    (st : Drag.State) (sources : list string) :
  (0 <= Drag.paddingMm (Drag.act Drag.PressPlus st)
   /\ Drag.paddingMm (Drag.act Drag.PressPlus st) <= Drag.maxPaddingOf st
   /\ 0 <= Drag.paddingMm (Drag.act Drag.PressMinus st)
   /\ Drag.paddingMm (Drag.act Drag.PressMinus st) <= Drag.maxPaddingOf st)
  /\ (let reached := Drag.run actions Drag.initial in
      0 <= Drag.paddingMm reached /\ Drag.paddingMm reached <= 106
      /\ exists z : Z, Drag.paddingMm reached == inject_Z z)
  /\ (let over := Drag.run overPadded Drag.initial in
      Drag.paddingMm over == 106
      /\ Drag.maxPaddingOf over == 104
      /\ cssValue ".content" "width" (dragMarkup over sources) = Some "1mm"
      /\ cssValue ".content" "height" (dragMarkup over sources)
         = Some "85mm").
Proof.
  split; [| split].
  - destruct (maxPaddingOf_bounds st) as (Hm0 & _).
    simpl. unfold Drag.stepPadding. simpl. fold (Drag.maxPaddingOf st).
    destruct (clamp_range (Drag.paddingMm st + 2) 0
                (Drag.maxPaddingOf st) Hm0) as (? & ? & _).
    destruct (clamp_range (Drag.paddingMm st + -2) 0
                (Drag.maxPaddingOf st) Hm0) as (? & ? & _).
    repeat split; assumption.
  - apply dragPaddingOk_run. repeat split; try discriminate. by exists 10%Z.
  - cbv zeta. repeat split; vm_compute; reflexivity.
Qed.

(** ** The list of images *)

Lemma removeUri_absent (target : string) (previous : list SelectedImage) :
  target ∉ uri <$> previous -> removeUri target previous = previous.
Proof.
  induction previous as [| x l IH]; intros Hno; [reflexivity |].
  rewrite fmap_cons, not_elem_of_cons in Hno. destruct Hno as [Hx Hl].
  unfold removeUri. rewrite filter_cons_True by congruence.
  f_equal. by apply IH.
Qed.

Lemma removeUri_length (target : string) (previous : list SelectedImage) :
  NoDup (uri <$> previous) -> target ∈ uri <$> previous ->
  S (length (removeUri target previous)) = length previous.
Proof.
  induction previous as [| x l IH]; intros Hnd Hin;
    [by apply elem_of_nil in Hin |].
  rewrite fmap_cons in Hnd, Hin. apply NoDup_cons in Hnd as [Hx Hl].
  unfold removeUri.
  destruct (decide (uri x = target)) as [<- | Hne].
  - rewrite filter_cons_False by (intros H; by apply H).
    fold (removeUri (uri x) l). by rewrite removeUri_absent.
  - rewrite filter_cons_True by exact Hne. simpl. f_equal.
    apply IH; [exact Hl |]. apply elem_of_cons in Hin as [E | Hin];
      [congruence | exact Hin].
Qed.

(** X6: removing a handle leaves no image with that handle and keeps
    every other image in its place in the order; it changes nothing when
    the handle is absent, takes exactly one image away when the handles
    are distinct and the handle is present, and undoes the pick of a
    single image that was not there before. *)
Theorem removeUri_removes_exactly (target : string)
    (previous : list SelectedImage) (asset : ImagePickerAsset) :
  (target ∉ uri <$> removeUri target previous)
  /\ removeUri target previous `sublist_of` previous
  /\ (forall x, x ∈ previous -> uri x <> target ->
                x ∈ removeUri target previous)
  /\ (target ∉ uri <$> previous -> removeUri target previous = previous)
  /\ (NoDup (uri <$> previous) -> target ∈ uri <$> previous ->
      S (length (removeUri target previous)) = length previous)
  /\ (asset_uri asset ∉ uri <$> previous ->
      removeUri (asset_uri asset) (addPicked [asset] previous) = previous).
Proof.
  split; [| split; [| split; [| split; [| split]]]].
  - intros Hin. apply list_elem_of_fmap in Hin as (x & Hx & Hf).
    apply list_elem_of_filter in Hf as [Hne _]. by apply Hne.
  - apply sublist_filter.
  - intros x Hx Hne. by apply list_elem_of_filter.
  - apply removeUri_absent.
  - apply removeUri_length.
  - intros Hnew. unfold addPicked. cbv zeta.
    rewrite filter_cons_True by (by rewrite elem_of_list_to_set).
    rewrite filter_nil. simpl. unfold removeUri.
    rewrite filter_app. fold (removeUri (asset_uri asset) previous).
    rewrite (removeUri_absent _ _ Hnew).
    rewrite filter_cons_False by (intros H; by apply H).
    by rewrite filter_nil, app_nil_r.
Qed.

Lemma removeUri_removes_exactly_witness :
  (("c.gif" ∉ uri <$> [imageOf "a.jpg" None; imageOf "b.png" None])
   /\ NoDup (uri <$> [imageOf "a.jpg" None; imageOf "b.png" None])
   /\ "a.jpg" ∈ uri <$> [imageOf "a.jpg" None; imageOf "b.png" None])
  /\ removeUri "c.gif"
       (addPicked [assetOf "c.gif"]
          [imageOf "a.jpg" None; imageOf "b.png" None])
     = [imageOf "a.jpg" None; imageOf "b.png" None]
  /\ S (length (removeUri "a.jpg"
                  [imageOf "a.jpg" None; imageOf "b.png" None]))
     = 2%nat.
Proof.
  set (l := [imageOf "a.jpg" None; imageOf "b.png" None]).
  assert (H1 : "c.gif" ∉ uri <$> l).
  { apply (bool_decide_unpack _). vm_compute. exact I. }
  assert (H2 : NoDup (uri <$> l)).
  { apply (bool_decide_unpack _). vm_compute. exact I. }
  assert (H3 : "a.jpg" ∈ uri <$> l).
  { apply (bool_decide_unpack _). vm_compute. exact I. }
  split; [repeat split; assumption |].
  destruct (removeUri_removes_exactly "a.jpg" l (assetOf "c.gif"))
    as (_ & _ & _ & _ & Hlen & _).
  destruct (removeUri_removes_exactly "c.gif" l (assetOf "c.gif"))
    as (_ & _ & _ & _ & _ & Hundo).
  split; [exact (Hundo H1) | exact (Hlen H2 H3)].
Defined.

(** X7: after a pick the handles in the list are those that were there
    together with those picked, nothing else; the list grows by at most
    the number of picked assets; and a pick of assets that are all
    present already changes nothing. *)
Theorem addPicked_handles (previous : list SelectedImage)
    (picked : list ImagePickerAsset) :
  (list_to_set (uri <$> addPicked picked previous) : gset string)
  = list_to_set (uri <$> previous) ∪ list_to_set (asset_uri <$> picked)
  /\ (length previous <= length (addPicked picked previous)
      <= length previous + length picked)%nat
  /\ ((forall a, a ∈ picked -> asset_uri a ∈ uri <$> previous) ->
      addPicked picked previous = previous).
Proof.
  split; [| split].
  - unfold addPicked. cbv zeta. rewrite fmap_app, uri_toSelectedImage.
    apply set_eq. intros u.
    rewrite elem_of_union, !elem_of_list_to_set, elem_of_app,
      !list_elem_of_fmap.
    split.
    + intros [H | (a & -> & Ha)]; [by left |].
      apply list_elem_of_filter in Ha as [_ Ha]. right. by exists a.
    + intros [H | (a & -> & Ha)]; [by left |].
      destruct (decide (asset_uri a ∈ uri <$> previous)) as [Hold | Hnew].
      * left. by apply list_elem_of_fmap.
      * right. exists a. split; [reflexivity |].
        apply list_elem_of_filter. split; [| exact Ha].
        by rewrite elem_of_list_to_set.
  - unfold addPicked. cbv zeta. rewrite length_app, length_fmap.
    pose proof (length_filter
                  (fun asset : ImagePickerAsset =>
                     asset_uri asset
                       ∉ (list_to_set (uri <$> previous) : gset string))
                  picked).
    lia.
  - intros Hall. unfold addPicked. cbv zeta.
    rewrite filter_none; [by rewrite fmap_nil, app_nil_r |].
    intros a Ha Hnew. apply Hnew. rewrite elem_of_list_to_set. by apply Hall.
Qed.

Lemma addPicked_handles_witness :
  (forall a, a ∈ [assetOf "a.jpg"] ->
             asset_uri a ∈ uri <$> [imageOf "a.jpg" (Some "image/jpeg")])
  /\ addPicked [assetOf "a.jpg"] [imageOf "a.jpg" (Some "image/jpeg")]
     = [imageOf "a.jpg" (Some "image/jpeg")].
Proof.
  assert (H : forall a, a ∈ [assetOf "a.jpg"] ->
                asset_uri a ∈ uri <$> [imageOf "a.jpg" (Some "image/jpeg")]).
  { intros a Ha. apply list_elem_of_singleton in Ha as ->.
    apply (bool_decide_unpack _). vm_compute. exact I. }
  split; [exact H |].
  exact (proj2 (proj2 (addPicked_handles _ _)) H).
Defined.

(** ** Picking *)

Ltac crush_trace :=
  repeat first
    [ progress intros
    | progress subst
    | progress simplify_eq
    | match goal with
      | |- _ /\ _ => split
      | |- _ ∉ _ => intro
      | H : _ \/ _ |- _ => destruct H
      | H : _ ∈ [] |- _ => by apply elem_of_nil in H
      | H : _ ∈ _ :: _ |- _ => apply elem_of_cons in H as [H | H]
      | H : _ ∈ _ ++ _ |- _ => apply elem_of_app in H as [H | H]
      | H : ex _ |- _ => destruct H
      | H : _ /\ _ |- _ => destruct H
      | |- _ `prefix_of` _ ++ _ => by apply prefix_app_r
      end
    | discriminate
    | done ].



(** ** Exporting *)

Lemma readEffects_elem (images : list SelectedImage) (e : Effect) :
  e ∈ readEffects images <-> exists image, image ∈ images
                                          /\ e = ReadBase64 (uri image).
Proof.
  unfold readEffects. rewrite list_elem_of_fmap.
  split; intros (i & H1 & H2); exists i; by split.
Qed.

Lemma last_app_nonempty {A} (l : list A) (x : A) (k : list A) :
  last (l ++ x :: k) = last (x :: k).
Proof.
  induction l as [| y l IH]; [reflexivity |].
  simpl. destruct (l ++ x :: k) eqn:E; [by destruct l | exact IH].
Qed.

Lemma reads_in_trace (u : string) (images : list SelectedImage)
    (k : list Effect) :
  (forall v, ReadBase64 v ∉ k) ->
  ReadBase64 u ∈ ([SetInProgress true] ++ readEffects images) ++ k
  <-> u ∈ uri <$> images.
Proof.
  intros Hk. rewrite !elem_of_app, readEffects_elem, list_elem_of_fmap.
  split.
  - intros [[H | (i & Hi & E)] | H].
    + apply list_elem_of_singleton in H. discriminate.
    + injection E as ->. by exists i.
    + by destruct (Hk u).
  - intros (i & -> & Hi). left. right. by exists i.
Qed.

Lemma other_in_trace (e : Effect) (images : list SelectedImage)
    (k : list Effect) :
  (forall v, e <> ReadBase64 v) -> e <> SetInProgress true ->
  e ∈ ([SetInProgress true] ++ readEffects images) ++ k -> e ∈ k.
Proof.
  intros Hr Hs. rewrite !elem_of_app, readEffects_elem.
  intros [[H | (i & _ & E)] | H].
  - apply list_elem_of_singleton in H. by destruct Hs.
  - by destruct (Hr (uri i)).
  - exact H.
Qed.

Ltac trace_facts :=
  match goal with
  | |- forall u, ReadBase64 u ∈ _ <-> _ =>
      intros ?; apply reads_in_trace; crush_trace
  | |- last _ = _ =>
      cbn [app]; rewrite ?app_comm_cons, last_app_nonempty; reflexivity
  | |- _ => idtac
  end.

Lemma closed_length (st0 : Tabs.State) (commits : list Tabs.State) :
  let m := foldl Tabs.render (Tabs.mount st0) commits in
  length (Tabs.closed m) = length (Tabs.images (Tabs.now m)).
Proof.
  induction commits as [| st commits IH] using rev_ind; [reflexivity |].
  rewrite foldl_app. cbn [foldl]. cbv zeta in IH |- *.
  set (m := foldl Tabs.render (Tabs.mount st0) commits) in *.
  unfold Tabs.render. cbn [Tabs.closed Tabs.now].
  destruct (Tabs.sameDependencies (Tabs.now m) st) eqn:E; [| reflexivity].
  unfold Tabs.sameDependencies in E.
  rewrite !andb_true_iff, bool_decide_eq_true in E.
  destruct E as [[[E _] _] _]. congruence.
Qed.

Lemma convertToPdf_facts (sv : Services) (st : Tabs.State) :
  let r := Tabs.convertToPdf sv st in
  Tabs.setPdfUri (Tabs.pdfUri st)
    (Tabs.setIsConverting (Tabs.isConverting st) r.1) = st
  /\ (Tabs.isConverting st = false -> Tabs.isConverting r.1 = false)
  /\ (forall u, ReadBase64 u ∈ r.2 <-> u ∈ uri <$> Tabs.images st)
  /\ (forall html, PrintToFile html ∈ r.2 ->
        exists sources, readAll sv (Tabs.images st) = Some sources
                        /\ html = tabsMarkup st sources)
  /\ (Tabs.pdfUri r.1 = Tabs.pdfUri st
      \/ exists html file,
           PrintToFile html ∈ r.2
           /\ printToFileAsync sv html = Some file
           /\ Tabs.pdfUri r.1 = Some file)
  /\ (SetInProgress true ∈ r.2 ->
      head r.2 = Some (SetInProgress true)
      /\ last r.2 = Some (SetInProgress false)).
Proof.
  intros r. subst r. unfold Tabs.convertToPdf, tabsMarkup, Tabs.pageOf.
  destruct st as [imgs p o m c u s].
  cbn [Tabs.images Tabs.paperSize Tabs.orientation Tabs.marginMm
       Tabs.isConverting Tabs.pdfUri Tabs.isSharing].
  destruct imgs as [| x l].
  { cbn. repeat split; crush_trace. by left. }
  cbv beta iota zeta. generalize (x :: l). clear x l. intros imgs.
  destruct (readAll sv imgs) as [sources |] eqn:Hread.
  - destruct (printToFileAsync sv _) as [file |] eqn:Hprint;
      cbn [fst snd Tabs.setIsConverting Tabs.setPdfUri Tabs.images
           Tabs.paperSize Tabs.orientation Tabs.marginMm
           Tabs.isConverting Tabs.pdfUri Tabs.isSharing];
      (split; [reflexivity |]); (split; [done |]);
      (split; [trace_facts |]); split.
    + intros html Hin. apply other_in_trace in Hin; [| done | done].
      exists sources. crush_trace.
    + split.
      * right. eexists _, file.
        split; [| split; [exact Hprint | reflexivity]].
        apply elem_of_app. right. left.
      * intros _. split; [reflexivity | trace_facts].
    + intros html Hin. apply other_in_trace in Hin; [| done | done].
      exists sources. crush_trace.
    + split; [by left |].
      intros _. split; [reflexivity | trace_facts].
  - cbn [fst snd Tabs.setIsConverting Tabs.setPdfUri Tabs.images
         Tabs.paperSize Tabs.orientation Tabs.marginMm
         Tabs.isConverting Tabs.pdfUri Tabs.isSharing].
    split; [reflexivity |]. split; [done |]. split; [trace_facts |].
    split; [| split; [by left |]].
    + intros html Hin. apply other_in_trace in Hin; [| done | done].
      crush_trace.
    + intros _. split; [reflexivity | trace_facts].
Qed.

(** X9: a press on the convert button, after any renders.  Nothing of
    the state changes but the progress flag and the handle of the PDF, and
    the flag is down when the handler is done.  The images read are those
    of the list that the memoised callback closes over, and no others:
    a list as long as the current one, and the current one itself after
    a render that changed the number of images; a render that replaces
    the list by another of the same length leaves the callback with the
    list of before.  The printer receives markup only when every read
    succeeded, and then the markup of exactly those sources with the page
    and the margin of the state; and the handle of the PDF changes only to
    the file that the printer returned: a failed run keeps the handle of
    an earlier PDF. *)
Theorem convertToPdf_lifecycle (sv : Services) (st0 : Tabs.State)
    (commits : list Tabs.State) :
  let m := foldl Tabs.render (Tabs.mount st0) commits in
  let r := Tabs.pressConvert sv m in
  Tabs.setPdfUri (Tabs.pdfUri (Tabs.now m))
    (Tabs.setIsConverting (Tabs.isConverting (Tabs.now m)) (Tabs.now r.1))
  = Tabs.now m
  /\ (Tabs.isConverting (Tabs.now m) = false ->
      Tabs.isConverting (Tabs.now r.1) = false)
  /\ (forall u, ReadBase64 u ∈ r.2 <-> u ∈ uri <$> Tabs.closed m)
  /\ length (Tabs.closed m) = length (Tabs.images (Tabs.now m))
  /\ (forall st,
        length (Tabs.images st) <> length (Tabs.images (Tabs.now m)) ->
        Tabs.closed (Tabs.render m st) = Tabs.images st)
  /\ (forall st,
        Tabs.sameDependencies (Tabs.now m) st = true ->
        Tabs.closed (Tabs.render m st) = Tabs.closed m)
  /\ (forall html, PrintToFile html ∈ r.2 ->
        exists sources, readAll sv (Tabs.closed m) = Some sources
                        /\ html = tabsMarkup (Tabs.now m) sources)
  /\ (Tabs.pdfUri (Tabs.now r.1) = Tabs.pdfUri (Tabs.now m)
      \/ exists html file,
           PrintToFile html ∈ r.2
           /\ printToFileAsync sv html = Some file
           /\ Tabs.pdfUri (Tabs.now r.1) = Some file)
  /\ (SetInProgress true ∈ r.2 ->
      head r.2 = Some (SetInProgress true)
      /\ last r.2 = Some (SetInProgress false)).
Proof.
  intros m r.
  pose proof (closed_length st0 commits) as Hlen. cbv zeta in Hlen.
  fold m in Hlen.
  destruct (convertToPdf_facts sv
              (Tabs.setImages (fun _ => Tabs.closed m) (Tabs.now m)))
    as (Hst & Hflag & Hreads & Hprint & Huri & Htrace).
  subst r. unfold Tabs.pressConvert. cbv zeta. cbn [fst snd Tabs.now].
  set (r := Tabs.convertToPdf sv _) in *.
  destruct (Tabs.now m) as [imgs p o mg c u s] eqn:Enow.
  split.
  { apply (f_equal (Tabs.setImages (fun _ => imgs))) in Hst.
    destruct r.1. exact Hst. }
  split; [exact Hflag |]. split; [exact Hreads |]. split; [exact Hlen |].
  split.
  { intros st Hne. unfold Tabs.render. cbn [Tabs.closed].
    rewrite Enow.
    destruct (Tabs.sameDependencies _ st) eqn:E; [| reflexivity].
    unfold Tabs.sameDependencies in E.
    rewrite !andb_true_iff, bool_decide_eq_true in E.
    destruct E as [[[E _] _] _]. cbn [Tabs.images] in *. congruence. }
  split.
  { intros st E. unfold Tabs.render. cbn [Tabs.closed].
    rewrite Enow. by rewrite E. }
  split; [exact Hprint |]. split; [| exact Htrace].
  destruct r.1. exact Huri.
Qed.

Lemma convertToPdf_lifecycle_witness :
  let sv := {| permissionGranted := true;
               pickerResult := {| canceled := true; assets := None |};
               base64 := fun _ => None;
               printToFileAsync := fun _ => Some "file:///new.pdf";
               printAsync := fun _ _ => true;
               sharingAvailable := true |} in
  let st0 := Tabs.setPdfUri (Some "file:///old.pdf")
               (Tabs.setImages (fun _ => [imageOf "a.jpg" None])
                  Tabs.initial) in
  let st1 := Tabs.setImages (fun _ => [imageOf "b.png" None]) st0 in
  let m := foldl Tabs.render (Tabs.mount st0) [st1] in
  (Tabs.isConverting (Tabs.now m) = false
   /\ Tabs.images (Tabs.now m) = [imageOf "b.png" None])
  /\ Tabs.isConverting (Tabs.now (Tabs.pressConvert sv m).1) = false
  /\ ReadBase64 "a.jpg" ∈ (Tabs.pressConvert sv m).2
  /\ Tabs.pdfUri (Tabs.now (Tabs.pressConvert sv m).1)
     = Some "file:///old.pdf".
Proof.
  intros sv st0 st1 m.
  assert (H : Tabs.isConverting (Tabs.now m) = false) by reflexivity.
  split; [split; [exact H | reflexivity] |].
  destruct (convertToPdf_lifecycle sv st0 [st1]) as (_ & Hflag & Hreads & _).
  split; [exact (Hflag H) |].
  split; [| reflexivity].
  apply Hreads. vm_compute. left.
Defined.

(** X10: [generatePdf] changes nothing of the state but the progress
    flag, which is down when the handler is done; every selected image is
    read, and nothing else; the print dialog receives markup only when
    every read succeeded, with the orientation of the state and the markup
    of exactly those sources; and an alert is shown only for an empty
    selection, an unreadable image or a failed print. *)
Theorem generatePdf_lifecycle (sv : Services) (st : Drag.State) :
  let r := Drag.generatePdf sv st in
  Drag.setIsGenerating (Drag.isGenerating st) r.1 = st
  /\ (Drag.isGenerating st = false -> Drag.isGenerating r.1 = false)
  /\ (forall u, ReadBase64 u ∈ r.2 <-> u ∈ uri <$> Drag.images st)
  /\ (forall html o, PrintAsync html o ∈ r.2 ->
        o = Drag.orientation st
        /\ exists sources, readAll sv (Drag.images st) = Some sources
                           /\ html = dragMarkup st sources)
  /\ (forall t m, Alert t m ∈ r.2 ->
        Drag.images st = []
        \/ readAll sv (Drag.images st) = None
        \/ exists sources,
             readAll sv (Drag.images st) = Some sources
             /\ printAsync sv (dragMarkup st sources) (Drag.orientation st)
                = false)
  /\ (SetInProgress true ∈ r.2 ->
      head r.2 = Some (SetInProgress true)
      /\ last r.2 = Some (SetInProgress false)).
Proof.
  intros r. subst r. unfold Drag.generatePdf, dragMarkup, Drag.pageOf.
  destruct st as [imgs p o m g c].
  cbn [Drag.images Drag.paperSize Drag.orientation Drag.paddingMm
       Drag.isGenerating Drag.previewCanvasSize].
  destruct imgs as [| x l].
  { cbn. repeat split; crush_trace. by left. }
  cbv beta iota zeta. generalize (x :: l). clear x l. intros imgs.
  destruct (readAll sv imgs) as [sources |] eqn:Hread.
  - destruct (printAsync sv _ o) eqn:Hprint;
      cbn [fst snd Drag.setIsGenerating Drag.images Drag.paperSize
           Drag.orientation Drag.paddingMm Drag.isGenerating
           Drag.previewCanvasSize];
      (split; [reflexivity |]); (split; [done |]);
      (split; [trace_facts |]); (split; [| split]).
    + intros html o' Hin. apply other_in_trace in Hin; [| done | done].
      crush_trace. by exists sources.
    + intros t msg Hin. apply other_in_trace in Hin; [| done | done].
      crush_trace.
    + intros _. split; [reflexivity | trace_facts].
    + intros html o' Hin. apply other_in_trace in Hin; [| done | done].
      crush_trace. by exists sources.
    + intros t msg _. right. right. by exists sources.
    + intros _. split; [reflexivity | trace_facts].
  - cbn [fst snd Drag.setIsGenerating Drag.images Drag.paperSize
         Drag.orientation Drag.paddingMm Drag.isGenerating
         Drag.previewCanvasSize].
    split; [reflexivity |]. split; [done |]. split; [trace_facts |].
    split; [| split].
    + intros html o' Hin. apply other_in_trace in Hin; [| done | done].
      crush_trace.
    + intros t msg _. right. by left.
    + intros _. split; [reflexivity | trace_facts].
Qed.

Lemma generatePdf_lifecycle_witness :
  let sv := {| permissionGranted := true;
               pickerResult := {| canceled := true; assets := None |};
               base64 := fun _ => Some "QUJD";
               printToFileAsync := fun _ => None;
               printAsync := fun _ _ => false;
               sharingAvailable := true |} in
  let st := Drag.onDragEnd [imageOf "a.jpg" None] Drag.initial in
  Drag.isGenerating st = false
  /\ Drag.isGenerating (Drag.generatePdf sv st).1 = false.
Proof.
  intros sv st.
  assert (H : Drag.isGenerating st = false) by reflexivity.
  split; [exact H |].
  exact (proj1 (proj2 (generatePdf_lifecycle sv st)) H).
Defined.

Lemma readAll_Forall2 (sv : Services) (images : list SelectedImage)
    (sources : list string) :
  readAll sv images = Some sources
  <-> Forall2
        (fun image source =>
           exists payload,
             base64 sv (uri image) = Some payload
             /\ source = "data:" +:+ inferImageMimeType image
                           +:+ ";base64," +:+ payload)
        images sources.
Proof.
  unfold readAll. rewrite mapM_Some.
  split; intros H; (eapply Forall2_impl; [exact H |]);
    intros image source; cbv beta;
    destruct (base64 sv (uri image)) as [payload |]; simpl.
  - intros [= <-]. by exists payload.
  - discriminate.
  - intros (q & [= <-] & ->). reflexivity.
  - intros (q & Hq & _). discriminate.
Qed.

(** X11: the reads of an export succeed together or not at all: there
    are sources exactly when every image can be read, and then there is
    one source per image, in the order of the images, each the data URI
    of the inferred type and the payload of its own image. *)
Theorem readAll_all_or_nothing (sv : Services)
    (images : list SelectedImage) :
  (forall sources,
      readAll sv images = Some sources
      <-> Forall2
            (fun image source =>
               exists payload,
                 base64 sv (uri image) = Some payload
                 /\ source = "data:" +:+ inferImageMimeType image
                               +:+ ";base64," +:+ payload)
            images sources)
  /\ (readAll sv images = None
      <-> exists image, image ∈ images /\ base64 sv (uri image) = None)
  /\ (forall sources, readAll sv images = Some sources ->
                      length sources = length images).
Proof.
  split; [| split].
  - intros sources. apply readAll_Forall2.
  - unfold readAll. rewrite mapM_None, Exists_exists.
    split; intros (image & Hin & Hnone); exists image; split; try exact Hin.
    + by destruct (base64 sv (uri image)).
    + by rewrite Hnone.
  - intros sources Hread. unfold readAll in Hread.
    by apply length_mapM in Hread.
Qed.

Lemma readAll_all_or_nothing_witness :
  let sv := {| permissionGranted := true;
               pickerResult := {| canceled := true; assets := None |};
               base64 := fun u => if decide (u = "b.png") then None
                                  else Some "QUJD";
               printToFileAsync := fun _ => None;
               printAsync := fun _ _ => false;
               sharingAvailable := true |} in
  let images := [imageOf "a.jpg" None; imageOf "b.png" None] in
  (exists image, image ∈ images /\ base64 sv (uri image) = None)
  /\ readAll sv images = None.
Proof.
  intros sv images.
  assert (H : exists image, image ∈ images /\ base64 sv (uri image) = None).
  { exists (imageOf "b.png" None). split; [| reflexivity].
    right. left. }
  split; [exact H |].
  exact (proj2 (proj1 (proj2 (readAll_all_or_nothing sv images))) H).
Defined.






(** ** Sharing *)

(** X13: [sharePdf] shares nothing but the PDF of the state, and only
    when there is one and sharing is available; it leaves the state as it
    was, the sharing flag being down again at the end.  After an export
    that produced a file, it shares exactly that file. *)
Theorem sharePdf_shares_the_export (sv : Services) (st : Tabs.State)
    (file : string) :
  let r := Tabs.sharePdf sv st in
  (forall u, ShareAsync u ∈ r.2 ->
             Tabs.pdfUri st = Some u /\ u <> EmptyString
             /\ sharingAvailable sv = true)
  /\ Tabs.setIsSharing (Tabs.isSharing st) r.1 = st
  /\ (Tabs.isSharing st = false -> r.1 = st)
  /\ (SetPdfUri file ∈ (Tabs.convertToPdf sv st).2 ->
      file <> EmptyString -> sharingAvailable sv = true ->
      (Tabs.sharePdf sv (Tabs.convertToPdf sv st).1).2
      = [SetIsSharing true; ShareAsync file; SetIsSharing false]).
Proof.
  intros r. subst r. split; [| split; [| split]].
  - unfold Tabs.sharePdf. intros u.
    destruct (Tabs.pdfUri st) as [[| c rest] |]; cbn; try (by crush_trace).
    destruct (sharingAvailable sv); cbn; crush_trace.
  - unfold Tabs.sharePdf. destruct st as [imgs p o m c u s]. cbn.
    destruct u as [[| ch rest] |]; cbn; try reflexivity.
    destruct (sharingAvailable sv); reflexivity.
  - unfold Tabs.sharePdf. destruct st as [imgs p o m c u s]. cbn.
    intros ->. destruct u as [[| ch rest] |]; cbn; try reflexivity.
    destruct (sharingAvailable sv); reflexivity.
  - intros Hset Hfile Havail.
    assert (Hpdf : Tabs.pdfUri (Tabs.convertToPdf sv st).1 = Some file).
    { revert Hset. unfold Tabs.convertToPdf.
      destruct (Tabs.images st) as [| x l]; [cbn [fst snd]; by crush_trace |].
      cbv zeta. generalize (x :: l). intros imgs.
      destruct (readAll sv imgs) as [sources |].
      - destruct (printToFileAsync sv _) as [f |]; cbn [fst snd];
          intros Hin; apply other_in_trace in Hin; try done;
          crush_trace.
      - cbn [fst snd]. intros Hin.
        apply other_in_trace in Hin; try done. crush_trace. }
    unfold Tabs.sharePdf. rewrite Hpdf, Havail.
    destruct file as [| c rest]; [done | reflexivity].
Qed.

Lemma sharePdf_shares_the_export_witness :
  let sv := {| permissionGranted := true;
               pickerResult := {| canceled := true; assets := None |};
               base64 := fun _ => Some "QUJD";
               printToFileAsync := fun _ => Some "file:///out.pdf";
               printAsync := fun _ _ => true;
               sharingAvailable := true |} in
  let st := Tabs.setImages (fun _ => [imageOf "a.jpg" None]) Tabs.initial in
  (SetPdfUri "file:///out.pdf" ∈ (Tabs.convertToPdf sv st).2
   /\ "file:///out.pdf" <> EmptyString /\ sharingAvailable sv = true)
  /\ (Tabs.sharePdf sv (Tabs.convertToPdf sv st).1).2
     = [SetIsSharing true; ShareAsync "file:///out.pdf"; SetIsSharing false].
Proof.
  intros sv st.
  assert (H1 : SetPdfUri "file:///out.pdf" ∈ (Tabs.convertToPdf sv st).2).
  { vm_compute. do 3 right. left. }
  assert (H2 : "file:///out.pdf" <> EmptyString) by discriminate.
  assert (H3 : sharingAvailable sv = true) by reflexivity.
  split; [repeat split; assumption |].
  exact (proj2 (proj2 (proj2
           (sharePdf_shares_the_export sv st "file:///out.pdf"))) H1 H2 H3).
Defined.

(** ** Escaping, further *)

Lemma escapeChar_cases (x : ascii) :
  (needsEscape x = false /\ escapeChar x = String x EmptyString)
  \/ (x = "&"%char /\ escapeChar x = "&amp;")
  \/ (x = "034"%char /\ escapeChar x = "&quot;")
  \/ (x = "'"%char /\ escapeChar x = "&#39;")
  \/ (x = "<"%char /\ escapeChar x = "&lt;")
  \/ (x = ">"%char /\ escapeChar x = "&gt;").
Proof.
  destruct x as [[] [] [] [] [] [] [] []]; vm_compute; tauto.
Qed.

Lemma length_append (a b : string) :
  String.length (a +:+ b) = (String.length a + String.length b)%nat.
Proof.
  induction a as [| x a IH]; [reflexivity |].
  rewrite append_cons. simpl. by rewrite IH.
Qed.

Lemma substChars_escapeChar_injective (a b : string) :
  substChars escapeChar a = substChars escapeChar b -> a = b.
Proof.
  revert b. induction a as [| x a IH]; intros [| y b] H.
  - reflexivity.
  - exfalso. simpl in H.
    destruct (escapeChar_cases y) as [[_ E] | [[_ E] | [[_ E] | [[_ E] |
      [[_ E] | [_ E]]]]]]; rewrite E, append_cons in H; discriminate.
  - exfalso. simpl in H.
    destruct (escapeChar_cases x) as [[_ E] | [[_ E] | [[_ E] | [[_ E] |
      [[_ E] | [_ E]]]]]]; rewrite E, append_cons in H; discriminate.
  - simpl in H.
    destruct (escapeChar_cases x) as [[Nx Ex] | [[-> Ex] | [[-> Ex] |
      [[-> Ex] | [[-> Ex] | [-> Ex]]]]]];
    destruct (escapeChar_cases y) as [[Ny Ey] | [[-> Ey] | [[-> Ey] |
      [[-> Ey] | [[-> Ey] | [-> Ey]]]]]];
    rewrite ?Ex, ?Ey in H; rewrite ?append_cons, ?append_nil_l in H;
    try discriminate;
    try (injection H as H; f_equal; by apply IH);
    try (injection H as -> H; f_equal; by apply IH);
    try (injection H as <- H; discriminate);
    try (injection H as -> H; discriminate).
Qed.

Lemma escape_length_grows (s : string) :
  (String.length s <= String.length (substChars escapeChar s))%nat
  /\ (noneOf needsEscape s = false ->
      (String.length s < String.length (substChars escapeChar s))%nat).
Proof.
  induction s as [| x s [IH1 IH2]]; [split; [done | discriminate] |].
  simpl. rewrite length_append.
  destruct (escapeChar_cases x) as [[Nx Ex] | [[-> Ex] | [[-> Ex] |
    [[-> Ex] | [[-> Ex] | [-> Ex]]]]]]; rewrite Ex; simpl;
    try (split; [lia | intros _; lia]).
  rewrite Nx. simpl. split; [lia |]. intros H. specialize (IH2 H). lia.
Qed.

(** X14: [escapeAttribute] never maps two different values to the same
    text; a value is left as it is exactly when it has none of the five
    characters it replaces (ampersand, double quote, apostrophe, less-than
    and greater-than sign); and escaping never shortens. *)
Theorem escapeAttribute_injective_minimal (a b s : string) :
  (escapeAttribute a = escapeAttribute b -> a = b)
  /\ (escapeAttribute s = s <-> noneOf needsEscape s = true)
  /\ (String.length s <= String.length (escapeAttribute s))%nat.
Proof.
  rewrite !escapeAttribute_one_pass. split; [| split].
  - apply substChars_escapeChar_injective.
  - split.
    + intros E. destruct (noneOf needsEscape s) eqn:Hs; [reflexivity |].
      pose proof (proj2 (escape_length_grows s) Hs) as Hlt.
      rewrite E in Hlt. lia.
    + induction s as [| x s IH]; [reflexivity |].
      simpl. intros H. apply andb_prop in H as [Hx Hs].
      destruct (escapeChar_cases x) as [[_ Ex] | [[-> _] | [[-> _] |
        [[-> _] | [[-> _] | [-> _]]]]]]; try discriminate.
      rewrite Ex, append_cons, append_nil_l. f_equal. by apply IH.
  - apply escape_length_grows.
Qed.

Lemma escapeAttribute_injective_minimal_witness :
  (escapeAttribute "data:image/png;base64,QUJD+/8="
   = escapeAttribute "data:image/png;base64,QUJD+/8="
   /\ noneOf needsEscape "data:image/png;base64,QUJD+/8=" = true)
  /\ escapeAttribute "data:image/png;base64,QUJD+/8="
     = "data:image/png;base64,QUJD+/8=".
Proof.
  split; [split; reflexivity |].
  exact (proj2 (proj1 (proj2
           (escapeAttribute_injective_minimal EmptyString EmptyString
              "data:image/png;base64,QUJD+/8="))) eq_refl).
Defined.

(** ** Image types, further *)

Lemma lowerChar_keeps (c sep : ascii) :
  sep = "?"%char \/ sep = "."%char ->
  Ascii.eqb (lowerChar c) sep = Ascii.eqb c sep.
Proof.
  intros [-> | ->]; destruct c as [[] [] [] [] [] [] [] []]; reflexivity.
Qed.

Lemma lowerChar_idempotent (c : ascii) :
  lowerChar (lowerChar c) = lowerChar c.
Proof. destruct c as [[] [] [] [] [] [] [] []]; reflexivity. Qed.

Lemma toLowerCase_idempotent (s : string) :
  toLowerCase (toLowerCase s) = toLowerCase s.
Proof.
  induction s as [| c s IH]; [reflexivity |].
  simpl. by rewrite lowerChar_idempotent, IH.
Qed.

Lemma beforeFirst_lower (sep : ascii) (s : string) :
  sep = "?"%char \/ sep = "."%char ->
  beforeFirst sep (toLowerCase s) = toLowerCase (beforeFirst sep s).
Proof.
  intros Hsep. induction s as [| c s IH]; [reflexivity |].
  simpl. rewrite (lowerChar_keeps c sep Hsep).
  destruct (Ascii.eqb c sep); [reflexivity |]. simpl. by rewrite IH.
Qed.

Lemma hasChar_lower (sep : ascii) (s : string) :
  sep = "?"%char \/ sep = "."%char ->
  hasChar sep (toLowerCase s) = hasChar sep s.
Proof.
  intros Hsep. induction s as [| c s IH]; [reflexivity |].
  simpl. by rewrite (lowerChar_keeps c sep Hsep), IH.
Qed.

Lemma afterLast_lower (sep : ascii) (s : string) :
  sep = "?"%char \/ sep = "."%char ->
  afterLast sep (toLowerCase s) = toLowerCase (afterLast sep s).
Proof.
  intros Hsep. induction s as [| c s IH]; [reflexivity |].
  simpl. rewrite (hasChar_lower sep s Hsep), (lowerChar_keeps c sep Hsep).
  destruct (hasChar sep s); [exact IH |].
  destruct (Ascii.eqb c sep); reflexivity.
Qed.

(** X15: the type that [inferImageMimeType] answers always starts with
    [image/]; without a declared type it is one of the five types of the
    table, and it does not depend on the case of the letters of the
    handle. *)
Theorem inferImageMimeType_always_image (image : SelectedImage)
    (handle : string) :
  startsWith (inferImageMimeType image) "image/" = true
  /\ inferImageMimeType (imageOf handle None) ∈ tableTypes
  /\ inferImageMimeType (imageOf (toLowerCase handle) None)
     = inferImageMimeType (imageOf handle None).
Proof.
  split; [| split].
  - unfold inferImageMimeType.
    destruct (declaredImageType image) as [m |] eqn:Hdecl.
    + unfold declaredImageType in Hdecl.
      destruct (mimeType image) as [d |]; [| discriminate].
      destruct (startsWith d "image/") eqn:Hd; [| discriminate].
      by injection Hdecl as <-.
    + cbv zeta. repeat case_decide; reflexivity.
  - unfold inferImageMimeType, tableTypes. simpl. cbv zeta.
    repeat case_decide; rewrite !elem_of_cons; tauto.
  - unfold inferImageMimeType. simpl. rewrite !extensionOf_spec. simpl.
    rewrite beforeFirst_lower by (by left).
    rewrite afterLast_lower by (by right).
    by rewrite toLowerCase_idempotent.
Qed.

(** ** The markup, for every setting *)



(** X17: for every paper size and orientation and every whole margin
    from 0 to 106 mm, the markup of the first screen sets the page and
    every sheet to the page dimensions with no page margin, and gives the
    sheet, sized as a border box, the margin as its padding. *)
Theorem tabs_markup_geometry (p : PaperSize) (o : Orientation) (n : nat)
    (sources : list string) (Hn : (n <= 106)%nat) :
  let page := getPageDimensionsMm p o in
  let margin := inject_Z (Z.of_nat n) in
  let html :=
    Tabs.buildPdfHtml (widthMm page) (heightMm page) margin sources in
  tabsGeometryRead html (widthMm page) (heightMm page) margin.
Proof.
  intros page margin html. subst page margin html.
  assert (Hall : Forall
            (fun k =>
               tabsGeometryRead
                 (Tabs.buildPdfHtml (widthMm (getPageDimensionsMm p o))
                    (heightMm (getPageDimensionsMm p o))
                    (inject_Z (Z.of_nat k)) sources)
                 (widthMm (getPageDimensionsMm p o))
                 (heightMm (getPageDimensionsMm p o))
                 (inject_Z (Z.of_nat k)))
            (seq 0 107)).
  { destruct p, o; apply (bool_decide_unpack _); vm_compute; exact I. }
  rewrite Forall_forall in Hall. apply Hall. apply elem_of_seq. lia.
Qed.

Lemma tabs_markup_geometry_witness :
  (12 <= 106)%nat
  /\ cssValue ".sheet" "padding"
       (Tabs.buildPdfHtml (2159 # 10) (3556 # 10) 12 []) = Some "12mm".
Proof.
  assert (H : (12 <= 106)%nat) by lia.
  split; [exact H |].
  destruct (tabs_markup_geometry Legal portrait 12 [] H)
    as (_ & _ & _ & _ & _ & Hpad).
  exact Hpad.
Defined.

(** ** The preview of the second screen *)

Lemma preview_ratio (w h padding canvasH : Q) :
  210 <= w -> 210 <= h -> 0 <= padding ->
  padding <= Drag.maxPaddingMm w h -> 0 < canvasH ->
  let canvas := (canvasH * Drag.previewAspectRatio w h, canvasH) in
  let size := Drag.previewContentSize canvas w h padding in
  1 <= fst size /\ 1 <= snd size
  /\ (1 <= fst canvas * (1 - padding * 2 / w) ->
      1 <= snd canvas * (1 - padding * 2 / h) ->
      fst size / snd size
      == Math.max (w - padding * 2) 1 / Math.max (h - padding * 2) 1).
Proof.
  intros Hw Hh Hp0 Hpmax Hc canvas size. subst canvas size.
  unfold Drag.previewContentSize, Drag.previewAspectRatio, Math.max.
  cbn [fst snd].
  split; [apply Q.le_max_l |]. split; [apply Q.le_max_l |].
  intros H1 H2.
  destruct (content_side_at_least_2 w h padding Hw Hh Hpmax) as [Hcw Hch].
  assert (Hw0 : ~ w == 0) by lra.
  assert (Hh0 : ~ h == 0) by lra.
  assert (Ew : 1 - padding * 2 / w == (w - 2 * padding) / w)
    by (field; exact Hw0).
  assert (Eh : 1 - padding * 2 / h == (h - 2 * padding) / h)
    by (field; exact Hh0).
  assert (Pw : 0 <= 1 - padding * 2 / w).
  { rewrite Ew. apply Qle_shift_div_l; lra. }
  assert (Ph : 0 <= 1 - padding * 2 / h).
  { rewrite Eh. apply Qle_shift_div_l; lra. }
  rewrite (Q.max_r 0 _ Pw), (Q.max_r 0 _ Ph) in *.
  rewrite (Q.max_r 1 _ H1), (Q.max_r 1 _ H2).
  rewrite (Q.max_l (w - padding * 2) 1) by lra.
  rewrite (Q.max_l (h - padding * 2) 1) by lra.
  rewrite Ew, Eh. field. repeat split; lra.
Qed.

(** X18: in the second screen the preview shows the content region in
    the proportions in which it is printed.  On a canvas that has the
    aspect ratio of the page, with a padding within its bound, the two
    sides of the preview region are at least one pixel; and when neither
    is held up at one pixel, width to height is as the content region of
    the markup, [max(widthMm - 2 padding, 1)] to
    [max(heightMm - 2 padding, 1)]. *)
Theorem preview_follows_content_box (p : PaperSize) (o : Orientation)
    (padding canvasH : Q) :
  let page := getPageDimensionsMm p o in
  let w := widthMm page in
  let h := heightMm page in
  let canvas := (canvasH * Drag.previewAspectRatio w h, canvasH) in
  let size := Drag.previewContentSize canvas w h padding in
  0 <= padding -> padding <= Drag.maxPaddingMm w h -> 0 < canvasH ->
  1 <= fst size /\ 1 <= snd size
  /\ (1 <= fst canvas * (1 - padding * 2 / w) ->
      1 <= snd canvas * (1 - padding * 2 / h) ->
      fst size / snd size
      == Math.max (w - padding * 2) 1 / Math.max (h - padding * 2) 1).
Proof.
  intros page w h canvas size Hp0 Hpmax Hc.
  destruct (paper_at_least_210 p o) as (Hw & Hh & _).
  by apply preview_ratio.
Qed.

Lemma preview_follows_content_box_witness :
  (0 <= 10 /\ 10 <= Drag.maxPaddingMm 210 297 /\ 0 < 297
   /\ 1 <= 297 * Drag.previewAspectRatio 210 297 * (1 - 10 * 2 / 210)
   /\ 1 <= 297 * (1 - 10 * 2 / 297))
  /\ fst (Drag.previewContentSize
            (297 * Drag.previewAspectRatio 210 297, 297) 210 297 10)
     / snd (Drag.previewContentSize
              (297 * Drag.previewAspectRatio 210 297, 297) 210 297 10)
     == Math.max (210 - 10 * 2) 1 / Math.max (297 - 10 * 2) 1.
Proof.
  assert (H1 : 0 <= 10) by discriminate.
  assert (H2 : 10 <= Drag.maxPaddingMm 210 297) by discriminate.
  assert (H3 : 0 < 297) by reflexivity.
  assert (H4 : 1 <= 297 * Drag.previewAspectRatio 210 297
                     * (1 - 10 * 2 / 210)) by discriminate.
  assert (H5 : 1 <= 297 * (1 - 10 * 2 / 297)) by discriminate.
  split; [repeat split; assumption |].
  exact (proj2 (proj2 (preview_follows_content_box A4 portrait 10 297
                         H1 H2 H3)) H4 H5).
Defined.

(** ** Print points *)

Lemma exactPoints_mono (a b : Q) :
  a <= b -> (exactPoints a <= exactPoints b)%Z.
Proof.
  intros Hab. unfold exactPoints. apply Qfloor_resp_le.
  assert (E : forall x, x / (254 # 10) * 72 + (1 # 2)
                        == x * (720 # 254) + (1 # 2)).
  { intros x. field. }
  rewrite !E. lra.
Qed.

Lemma pointsAgree_grid (n : nat) : (n <= 4000)%nat -> pointsAgree n.
Proof.
  intros Hn.
  assert (Hall : Forall pointsAgree (seq 0 4001)).
  { apply (bool_decide_unpack _). vm_compute. exact I. }
  rewrite Forall_forall in Hall. apply Hall. apply elem_of_seq. lia.
Qed.

(** X19: [mmToPrintPoints] turns the sides of the three papers into
    their customary sizes in points (595 by 842 for A4, 612 by 792 for
    Letter, 612 by 1008 for Legal).  On every length of 0.0, 0.1, ... up
    to 400.0 mm the doubles give the whole number that exact arithmetic
    gives, so that on these lengths the points never decrease when the
    length grows.  Off that grid the two can differ: the double printed
    as 7.937499999999999 is taken to 23, its exact value to 22. *)
Theorem mmToPrintPoints_monotone_standard (p : PaperSize) (n k : nat)
    (Hnk : (n <= k)%nat) (Hk : (k <= 4000)%nat) :
  (Drag.mmToPrintPoints (Binary64.ofQ (widthMm (PAPER_SIZES p))),
   Drag.mmToPrintPoints (Binary64.ofQ (heightMm (PAPER_SIZES p))))
  = (Some (standardPoints p).1, Some (standardPoints p).2)
  /\ pointsAgree k
  /\ (exists a b : Z,
        Drag.mmToPrintPoints (tenths n) = Some a
        /\ Drag.mmToPrintPoints (tenths k) = Some b
        /\ (a <= b)%Z)
  /\ Drag.mmToPrintPoints offGrid = Some 23%Z
  /\ exists x : Q, Binary64.toQ offGrid = Some x /\ exactPoints x = 22%Z.
Proof.
  split; [destruct p; vm_compute; reflexivity |].
  split; [by apply pointsAgree_grid |].
  split.
  - eexists _, _.
    split; [apply pointsAgree_grid; lia |].
    split; [by apply pointsAgree_grid |].
    apply exactPoints_mono.
    apply Qmult_le_compat_r; [| discriminate].
    rewrite <- Zle_Qle. lia.
  - split; [vm_compute; reflexivity |].
    eexists. split; [reflexivity |]. vm_compute. reflexivity.
Qed.

Lemma mmToPrintPoints_monotone_standard_witness :
  ((100 <= 2159)%nat /\ (2159 <= 4000)%nat)
  /\ Drag.mmToPrintPoints (tenths 2159) = Some 612%Z
  /\ exists a b : Z,
       Drag.mmToPrintPoints (tenths 100) = Some a
       /\ Drag.mmToPrintPoints (tenths 2159) = Some b
       /\ (a <= b)%Z.
Proof.
  assert (H1 : (100 <= 2159)%nat) by lia.
  assert (H2 : (2159 <= 4000)%nat) by lia.
  split; [split; assumption |].
  destruct (mmToPrintPoints_monotone_standard A4 100 2159 H1 H2)
    as (_ & Hagree & Hmono & _).
  split; [exact Hagree | exact Hmono].
Defined.

(** ** The column of the second screen *)

(** X20: the column of the second screen is never wider than the window
    and never wider than 860; its side padding is 12, 16 or 24; and in
    every window wider than 24 the padding on both sides leaves room
    between them. *)
Theorem column_fits_window (width : Q) :
  Drag.contentMaxWidth width <= width
  /\ Drag.contentMaxWidth width <= 860
  /\ (Drag.horizontalPadding width = 12 \/ Drag.horizontalPadding width = 16
      \/ Drag.horizontalPadding width = 24)
  /\ (24 < width ->
      2 * Drag.horizontalPadding width < Drag.contentMaxWidth width).
Proof.
  unfold Drag.contentMaxWidth, Drag.horizontalPadding.
  destruct (Qle_bool 1024 width) eqn:H1024;
    destruct (Qle_bool 768 width) eqn:H768;
    destruct (Qle_bool 420 width) eqn:H420;
    repeat match goal with
      | H : Qle_bool _ _ = true |- _ => apply Qle_bool_iff in H
      | H : Qle_bool ?x ?y = false |- _ =>
          assert (y < x)
            by (apply Qnot_le_lt; intros C; apply Qle_bool_iff in C;
                congruence);
          clear H
      end;
    (split; [lra |]); (split; [lra |]);
    (split; [auto | intros Hwide; lra]).
Qed.

Lemma column_fits_window_witness :
  (24 < 390) /\ 2 * Drag.horizontalPadding 390 < Drag.contentMaxWidth 390.
Proof.
  assert (H : 24 < 390) by reflexivity.
  split; [exact H |].
  exact (proj2 (proj2 (proj2 (column_fits_window 390))) H).
Defined.
